(** * Browser shell data managers: a shallow embedding and its properties

    The managers of the browser shell (bookmarks, history, todos, the tracker
    blocker, the site blocker and the translator) are embedded as pure
    functions over explicit states.  Python objects become records, mutable
    attributes become fields of the state that every operation returns,
    exceptions become the [Raise] branch of [result], and calls to the
    clock, to [uuid] and to the [re] library become arguments. *)

From Stdlib Require Import String Ascii ZArith Lia Bool.
From stdpp Require Import base tactics option list strings gmap.

Local Open Scope string_scope.
Local Open Scope Z_scope.

(** ** Exceptions and results *)

Inductive exn :=
| IndexError
| TypeError
| ValueError
| ZeroDivisionError
| NameError (name : string)
| ReError (pat : string).

Inductive result (A : Type) :=
| Ok (a : A)
| Raise (e : exn).
Arguments Ok {A} a.
Arguments Raise {A} e.

#[global] Instance result_ret : MRet result := fun A a => Ok a.
#[global] Instance result_bind : MBind result := fun A B k r =>
  match r with
  | Ok a => k a
  | Raise e => Raise e
  end.

#[global] Instance result_fmap : FMap result := fun A B f r =>
  match r with
  | Ok a => Ok (f a)
  | Raise e => Raise e
  end.

(** ** Python string operations *)

Module PyStr.

(** [s.startswith(p)] *)
Fixpoint startswith (p s : string) : bool :=
  match p, s with
  | EmptyString, _ => true
  | String a p', String b s' => Ascii.eqb a b && startswith p' s'
  | String _ _, EmptyString => false
  end.

(** [needle in hay] *)
Fixpoint str_in (needle hay : string) : bool :=
  startswith needle hay ||
  match hay with
  | EmptyString => false
  | String _ hay' => str_in needle hay'
  end.

(** [s.split(c)] for a separator of one character: the pieces between the
    separators, always at least one piece. *)
Fixpoint split (c : ascii) (s : string) : list string :=
  match s with
  | EmptyString => [EmptyString]
  | String a s' =>
      if Ascii.eqb a c then EmptyString :: split c s'
      else match split c s' with
           | piece :: rest => String a piece :: rest
           | [] => [String a EmptyString]
           end
  end.

(** [l[i]], which raises [IndexError] out of range (non-negative [i]). *)
Definition index {A} (l : list A) (i : nat) : result A :=
  match l !! i with
  | Some x => Ok x
  | None => Raise IndexError
  end.

(** [x or y] on an optional string: [None] and the empty string are falsy. *)
Definition str_or (x : option string) (y : string) : string :=
  match x with
  | Some s => if decide (s = "") then y else s
  | None => y
  end.

(** [l[:n]] for any integer [n]: a negative [n] counts from the end. *)
Definition slice_to {A} (n : Z) (l : list A) : list A :=
  if decide (0 <= n) then take (Z.to_nat n) l
  else take (Z.to_nat (Z.of_nat (length l) + n)) l.

(** [str.lower] on the ASCII letters, for running the operations that take
    [lower] as an argument. *)
Definition lower_char (a : ascii) : ascii :=
  let n := nat_of_ascii a in
  if ((65 <=? n) && (n <=? 90))%nat then ascii_of_nat (n + 32) else a.

Fixpoint lower_ascii (s : string) : string :=
  match s with
  | EmptyString => EmptyString
  | String a s' => String (lower_char a) (lower_ascii s')
  end.

(** Number of occurrences of a character. *)
Fixpoint count (c : ascii) (s : string) : nat :=
  match s with
  | EmptyString => 0%nat
  | String a s' => ((if Ascii.eqb a c then 1 else 0) + count c s')%nat
  end.

(** The substring relation that [str_in] decides. *)
Definition contains (needle hay : string) : Prop :=
  exists pre post, hay = pre +:+ needle +:+ post.

Lemma startswith_spec p s :
  startswith p s = true <-> exists post, s = p +:+ post.
Proof.
  revert s. induction p as [|a p IH]; intros s; simpl.
  - split; [intros _; by exists s | done].
  - destruct s as [|b s].
    + split; [done | intros [post H]; discriminate].
    + rewrite andb_true_iff, Ascii.eqb_eq, IH. split.
      * intros [-> [post ->]]. by exists post.
      * intros [post H]. injection H as -> ->. eauto.
Qed.

Lemma str_in_spec needle hay :
  str_in needle hay = true <-> contains needle hay.
Proof.
  unfold contains. induction hay as [|b hay IH].
  - simpl. rewrite orb_false_r, startswith_spec. split.
    + intros [post H]. by exists EmptyString, post.
    + intros [pre [post H]]. destruct pre; [by exists post | discriminate].
  - cbn [str_in]. rewrite orb_true_iff, IH, startswith_spec. split.
    + intros [[post H] | [pre [post H]]].
      * by exists EmptyString, post.
      * exists (String b pre), post. simpl. by rewrite H.
    + intros [[|a pre] [post H]].
      * left. by exists post.
      * right. simpl in H. injection H as -> ->. by exists pre, post.
Qed.

Lemma split_length c s : length (split c s) = S (count c s).
Proof.
  induction s as [|a s IH]; [done|]. simpl.
  destruct (Ascii.eqb a c); simpl; [by rewrite IH|].
  destruct (split c s); simpl in *; lia.
Qed.

Lemma count_app c s1 s2 : count c (s1 +:+ s2) = (count c s1 + count c s2)%nat.
Proof. induction s1 as [|a s1 IH]; simpl; [done | rewrite IH; lia]. Qed.

Lemma str_or_nonempty x y : y ≠ "" -> str_or x y ≠ "".
Proof. intros Hy. destruct x as [s|]; simpl; [by case_decide | done]. Qed.

Lemma slice_to_sublist {A} n (l : list A) : slice_to n l `sublist_of` l.
Proof. unfold slice_to. case_decide; apply sublist_take. Qed.

End PyStr.

(** ** List facts shared by the managers *)

Lemma Forall_filter_keeps {A} (P Q : A -> Prop) `{!forall x, Decision (P x)} l :
  Forall Q l -> Forall Q (filter P l).
Proof.
  rewrite !Forall_forall. intros HQ x [_ Hx]%list_elem_of_filter. by apply HQ.
Qed.

Lemma filter_shorter_iff {A} (P : A -> Prop) `{!forall x, Decision (P x)} (l : list A) :
  (length (filter P l) < length l)%nat <-> exists x, x ∈ l /\ ~ P x.
Proof.
  split.
  - induction l as [|x l IH]; simpl; [lia|].
    destruct (decide (P x)) as [Hx|Hx].
    + rewrite filter_cons_True by done. simpl. intros Hlt.
      destruct IH as [y [Hy HPy]]; [lia|]. exists y. split; [by right | done].
    + intros _. exists x. split; [by left | done].
  - intros [x [Hx HPx]]. by eapply length_filter_lt.
Qed.

Lemma filter_same_length {A} (P : A -> Prop) `{!forall x, Decision (P x)} (l : list A) :
  ~ (length (filter P l) < length l)%nat -> filter P l = l.
Proof.
  induction l as [|x l IH]; [done|]. intros Hlen.
  destruct (decide (P x)) as [Hx|Hx].
  - rewrite filter_cons_True in * by done. simpl in Hlen. f_equal. apply IH. lia.
  - rewrite filter_cons_False in Hlen by done. simpl in Hlen.
    pose proof (length_filter P l). lia.
Qed.

(** ** Counters and sorting *)

(** The sum of the counters of a [defaultdict(int)]. *)
Definition sum_counts (m : gmap string Z) : Z :=
  map_fold (fun _ n acc => n + acc) 0 m.

(** [d[k] += n] on a [defaultdict(int)] adds [n] to the sum. *)
Lemma sum_counts_add k n (m : gmap string Z) :
  sum_counts (<[k := default 0 (m !! k) + n]> m) = sum_counts m + n.
Proof.
  assert (forall (j1 j2 : string) (z1 z2 y : Z), z1 + (z2 + y) = z2 + (z1 + y))
    as Hcomm by (intros; lia).
  unfold sum_counts. destruct (m !! k) as [x|] eqn:Hk; simpl.
  - rewrite <- insert_delete_eq.
    rewrite map_fold_insert_L; [|intros; apply (Hcomm j1 j2) | apply lookup_delete_eq].
    rewrite (map_fold_delete_L _ _ k x m); [lia | intros; apply (Hcomm j1 j2) | done].
  - rewrite map_fold_insert_L; [lia | intros; apply (Hcomm j1 j2) | done].
Qed.

(** [sorted(l, key=key, reverse=reverse)]: a stable sort, so elements with
    equal keys keep their order, also with [reverse=True].  Each element is
    put before the first element of the sorted rest that may follow it. *)
Module PyList.

Section Sorted.

Context {A : Type} (key : A -> Z) (reverse : bool).

(** [x] may stand before [y]. *)
Definition before (x y : A) : bool :=
  if reverse then key y <=? key x else key x <=? key y.

Fixpoint insert (x : A) (l : list A) : list A :=
  match l with
  | [] => [x]
  | y :: l' => if before x y then x :: y :: l' else y :: insert x l'
  end.

Definition sorted (l : list A) : list A := foldr insert [] l.

(** Every element may stand before every later one. *)
Fixpoint ordered (l : list A) : Prop :=
  match l with
  | [] => True
  | x :: l' => Forall (fun y => before x y = true) l' /\ ordered l'
  end.

Lemma before_total x y : before x y = false -> before y x = true.
Proof. unfold before. destruct reverse; lia. Qed.

Lemma before_trans x y z : before x y = true -> before y z = true -> before x z = true.
Proof. unfold before. destruct reverse; lia. Qed.

Lemma insert_perm x l : insert x l ≡ₚ x :: l.
Proof.
  induction l as [|y l IH]; simpl; [done|].
  destruct (before x y); [done|]. rewrite IH. apply Permutation_swap.
Qed.

Lemma sorted_perm l : sorted l ≡ₚ l.
Proof.
  induction l as [|x l IH]; simpl; [done|]. by rewrite insert_perm, IH.
Qed.

Lemma insert_ordered x l : ordered l -> ordered (insert x l).
Proof.
  induction l as [|y l IH]; simpl; [by intros _; split; [constructor|]|].
  intros [Hy Hl]. destruct (before x y) eqn:Hxy; simpl.
  - split; [|done]. constructor; [done|].
    eapply Forall_impl; [exact Hy|]. intros z Hz. by eapply before_trans.
  - split; [|by apply IH].
    rewrite (insert_perm x l). constructor; [by apply before_total | done].
Qed.

Lemma sorted_ordered l : ordered (sorted l).
Proof. induction l as [|x l IH]; simpl; [done | by apply insert_ordered]. Qed.

Lemma ordered_lookup l i j x y :
  ordered l -> (i < j)%nat -> l !! i = Some x -> l !! j = Some y -> before x y = true.
Proof.
  revert i j. induction l as [|z l IH]; intros i j; [done|]. simpl.
  intros [Hz Hl] Hij Hi Hj. destruct i as [|i], j as [|j]; try lia; simpl in *.
  - injection Hi as ->. rewrite Forall_forall in Hz. apply Hz.
    by eapply list_elem_of_lookup_2.
  - eapply (IH i j); [done | lia | done | done].
Qed.



(** A sorted list of elements of one key is the list itself. *)
Lemma sorted_stable l k : Forall (fun x => key x = k) l -> sorted l = l.
Proof.
  induction 1 as [|x l Hx Hl IH]; simpl; [done|]. rewrite IH.
  destruct Hl as [|y l Hy _]; simpl; [done|].
  unfold before. rewrite Hx, Hy. destruct reverse; by rewrite Z.leb_refl.
Qed.

End Sorted.

(** [l[start:]] for any integer [start]: a negative [start] counts from the
    end. *)
Definition slice_from {A} (start : Z) (l : list A) : list A :=
  if decide (0 <= start) then drop (Z.to_nat start) l
  else drop (Z.to_nat (Z.of_nat (length l) + start)) l.

End PyList.

(** ** privacy/tracker_blocker.py *)

Module tracker_blocker.

Record TrackerPattern := {
  pattern : string;
  category : string;
  description : string
}.

Record Tracker := {
  domain : string;
  tracker_category : string;
  blocked_count : Z;
  first_seen : option string;
  last_seen : option string
}.

(** [Tracker(domain, category)]: the count starts at 0, both dates at [None]. *)
Definition Tracker_init (d c : string) : Tracker :=
  {| domain := d; tracker_category := c; blocked_count := 0;
     first_seen := None; last_seen := None |}.

Record Stats := {
  total_blocked : Z;
  by_category : gmap string Z;
  by_domain : gmap string Z
}.

Record TrackerBlocker := {
  enabled : bool;
  blocked_domains : gset string;
  whitelist : gset string;
  trackers : gmap string Tracker;
  stats : Stats;
  filters : list TrackerPattern
}.

(** [d[k] += 1] on a [defaultdict(int)]. *)
Definition incr (k : string) (d : gmap string Z) : gmap string Z :=
  <[k := default 0 (d !! k) + 1]> d.

Definition hit (t : Tracker) : Tracker :=
  {| domain := domain t; tracker_category := tracker_category t;
     blocked_count := blocked_count t + 1;
     first_seen := first_seen t; last_seen := last_seen t |}.

(** [url.split('/')[2]] when the url has a scheme, [url.split('/')[0]]
    otherwise, then the part before the first colon. *)
Definition _extract_domain (url : string) : result string :=
  d ← (if PyStr.str_in "://" url
       then PyStr.index (PyStr.split "/" url) 2
       else PyStr.index (PyStr.split "/" url) 0);
  PyStr.index (PyStr.split ":" d) 0.

Definition _record_block (self : TrackerBlocker) (d c : string) : TrackerBlocker :=
  let st := {| total_blocked := total_blocked (stats self) + 1;
               by_category := incr c (by_category (stats self));
               by_domain := incr d (by_domain (stats self)) |} in
  let known := match trackers self !! d with
               | Some _ => trackers self
               | None => <[d := Tracker_init d c]> (trackers self)
               end in
  {| enabled := enabled self;
     blocked_domains := blocked_domains self;
     whitelist := whitelist self;
     trackers := alter hit d known;
     stats := st;
     filters := filters self |}.

(** What a recorded hit for domain [d] under category [c] changes. *)
Definition records_hit (self self' : TrackerBlocker) (d c : string) : Prop :=
  total_blocked (stats self') = total_blocked (stats self) + 1 /\
  by_category (stats self') !! c = Some (default 0 (by_category (stats self) !! c) + 1) /\
  by_domain (stats self') !! d = Some (default 0 (by_domain (stats self) !! d) + 1) /\
  blocked_count <$> trackers self' !! d =
    Some (default 0 (blocked_count <$> trackers self !! d) + 1) /\
  enabled self' = enabled self /\
  blocked_domains self' = blocked_domains self /\
  whitelist self' = whitelist self /\
  filters self' = filters self.

Section Matching.

(** [re.compile(pattern, re.IGNORECASE).match(url)] found a match. *)
Variable re_match : string -> string -> bool.

(** The loop over [self.filters], which returns at the first match. *)
Fixpoint scan_filters (self : TrackerBlocker) (url d : string)
    (fs : list TrackerPattern) : TrackerBlocker * (bool * option TrackerPattern) :=
  match fs with
  | [] => (self, (false, None))
  | tracker_filter :: fs' =>
      if re_match (pattern tracker_filter) url
      then (_record_block self d (category tracker_filter), (true, Some tracker_filter))
      else scan_filters self url d fs'
  end.

Definition should_block (self : TrackerBlocker) (url page_domain : string)
    : result (TrackerBlocker * (bool * option TrackerPattern)) :=
  if negb (enabled self) then Ok (self, (false, None))
  else
    d ← _extract_domain url;
    if decide (d ∈ whitelist self) then Ok (self, (false, None))
    else if decide (d ∈ blocked_domains self)
    then Ok (_record_block self d "manual", (true, None))
    else Ok (scan_filters self url d (filters self)).

End Matching.

(** *** Construction *)

(** One element of the list display in [_load_default_filters]: the name
    that is called and its three string arguments. *)
Inductive call := Call (callee pat cat descr : string).

Definition default_filter_entries : list call := [
    Call "TrackerPattern" ".*\.google-analytics\.com" "analytics" "Google Analytics";
    Call "TrackerPattern" ".*\.googletagmanager\.com" "analytics" "Google Tag Manager";
    Call "TrackerPattern" ".*\.facebook\.net/.*signals" "social" "Facebook Pixel";
    Call "TrackerPattern" ".*\.facebook\.com/tr" "social" "Facebook Tracking";
    Call "TrackerPattern" ".*\.hotjar\.com" "analytics" "Hotjar";
    Call "TrackerPattern" ".*\.mixpanel\.com" "analytics" "Mixpanel";
    Call "TrackerPattern" ".*\.segment\.io" "analytics" "Segment";
    Call "TrackerPattern" ".*\.segment.com" "analytics" "Segment";
    Call "TrackerPattern" ".*\.amplitude\.com" "analytics" "Amplitude";
    Call "TrackerPattern" ".*\.newrelic\.com" "analytics" "New Relic";
    Call "TrackerPattern" ".*\.fullstory\.com" "analytics" "FullStory";
    Call "TrackerPattern" ".*\.mouseflow\.com" "analytics" "Mouseflow";
    Call "TrackerPattern" ".*\.crazyegg\.com" "analytics" "Crazy Egg";
    Call "TrackerPattern" ".*\.luckyorange\.com" "analytics" "Lucky Orange";
    Call "TrackerPattern" ".*\.quantserve\.com" "analytics" "Quantcast";
    Call "TrackerPattern" ".*\.scorecardresearch\.com" "analytics" "Comscore";
    Call "TrackerPattern" ".*\.doubleclick\.net" "advertising" "DoubleClick";
    Call "TrackerPattern" ".*\.googlesyndication\.com" "advertising" "Google Ads";
    Call "TrackerPattern" ".*\.adnxs\.com" "advertising" "AppNexus";
    Call "TrackerPattern" ".*\.adsrvr\.org" "advertising" "The Trade Desk";
    Call "TrackerPattern" ".*\.advertising\.com" "advertising" "Advertising.com";
    Call "TrackerPattern" ".*\.criteo\.com" "advertising" "Criteo";
    Call "TrackerPattern" ".*\.taboola\.com" "advertising" "Taboola";
    Call "TrackerPattern" ".*\.outbrain\.com" "advertising" "Outbrain";
    Call "TrackerPattern" ".*\.amazon-adsystem\.com" "advertising" "Amazon Ads";
    Call "TrackerPattern" ".*\.bing\.com/bat\.js" "advertizing" "Bing Ads";
    Call "TrackerPattern" ".*\.twitter\.com/.*collect" "social" "Twitter Analytics";
    Call "TrackerPattern" ".*\.linkedin\.com/px" "social" "LinkedIn Pixel";
    Call "TrackerPattern" ".*\.tiktok\.com/.*event" "social" "TikTok Pixel";
    Call "TrackerPattern" ".*coinhive\..*" "cryptomining" "CoinHive";
    Call "TrackerPattern" ".*coin-hive\..*" "cryptomining" "CoinHive";
    Call "TrackerPattern" ".*cryptoloot\..*" "cryptomining" "CryptoLoot";
    Call "TrackerPattern" ".*minero\.cc" "cryptomining" "Minero";
    Call "TrackerPattern" ".*webminer\..*" "cryptomining" "Web Miner";
    Call "TrackerPattern" ".*jsecoin\..*" "cryptomining" "JSEcoin";
    Call "TrackerPattern" ".*\.branch\.io" "fingerprinting" "Branch";
    Call "TrackerPattern" ".*\.fingerprintjs\.com" "fingerprinting" "FingerprintJS";
    Call "TrackerPattern" ".*\.iovation\.com" "fingerprinting" "IOvation";
    Call "TrackerPattern" ".*\.maxmind\.com" "fingerprinting" "MaxMind";
    Call "TrackerPattern" ".*\.optimizely\.com" "ab_testing" "Optimizely";
    Call "TrackerPattern" ".*\.vwo\.com" "ab_testing" "VWO";
    Call "TrackerPattern" ".*\.omniture\.com" "analytics" "Adobe Analytics";
    Call "TrackerPattern" ".*\.omtrdc\.net" "analytics" "Adobe Analytics";
    Call "TrackerPattern" ".*\.mookie1\.com" "advertising" "Mookie1";
    Call "TrackerPattern" ".*\.2mdn\.net" "advertising" "DoubleClick Manager";
    Call "TrackerPattern" ".*\.adform\.net" "advertising" "Adform";
    Call "TrackerPattern" ".*\.smartadserver\.com" "advertising" "Smart AdServer";
    Call "TrackerPattern" ".*\.rubiconproject\.com" "advertising" "Rubicon";
    Call "TrackerPattern" ".*\.pubmatic\.com" "advertising" "PubMatic";
    Call "TrackerPattern" ".*\.openx\.net" "advertising" "OpenX";
    Call "TrackerTrackerPattern" ".*\.bidswitch\.net" "advertising" "BidSwitch";
    Call "TrackerPattern" ".*\.casalemedia\.com" "advertising" "Casale Media";
    Call "TrackerPattern" ".*\.indexexchange\.com" "advertising" "Index Exchange";
    Call "TrackerPattern" ".*\.sharethrough\.com" "advertising" "ShareThrough";
    Call "TrackerPattern" ".*\.spotxchange\.com" "advertising" "SpotXchange";
    Call "TrackerPattern" ".*\.yieldmo\.com" "advertising" "YieldMo";
    Call "TrackerPattern" ".*\.contextweb\.com" "advertising" "ContextWeb";
    Call "TrackerPattern" ".*\.media\.net" "advertising" "Media.net"
].

Definition common_trackers : list string := [
  "google-analytics.com"; "googletagmanager.com"; "facebook.net";
  "hotjar.com"; "mixpanel.com"; "segment.io"; "amplitude.com";
  "doubleclick.net"; "googlesyndication.com"; "adnxs.com";
  "criteo.com"; "taboola.com"; "outbrain.com"; "amazon-adsystem.com"
].

(** Names bound at module level in tracker_blocker.py (imports and classes). *)
Definition module_names : list string := [
  "re"; "List"; "Dict"; "Set"; "Optional"; "defaultdict";
  "TrackerPattern"; "Tracker"; "TrackerBlocker"; "CryptoMinerBlocker";
  "FingerprintProtector"
].

(** Python's built-in functions and types, where a name is looked up last. *)
Definition builtin_names : list string := [
  "abs"; "aiter"; "all"; "anext"; "any"; "ascii"; "bin"; "bool"; "breakpoint";
  "bytearray"; "bytes"; "callable"; "chr"; "classmethod"; "compile"; "complex";
  "delattr"; "dict"; "dir"; "divmod"; "enumerate"; "eval"; "exec"; "filter";
  "float"; "format"; "frozenset"; "getattr"; "globals"; "hasattr"; "hash";
  "help"; "hex"; "id"; "input"; "int"; "isinstance"; "issubclass"; "iter";
  "len"; "list"; "locals"; "map"; "max"; "memoryview"; "min"; "next"; "object";
  "oct"; "open"; "ord"; "pow"; "print"; "property"; "range"; "repr";
  "reversed"; "round"; "set"; "setattr"; "slice"; "sorted"; "staticmethod";
  "str"; "sum"; "super"; "tuple"; "type"; "vars"; "zip"
].

Section Construction.

(** [re.compile(pattern, re.IGNORECASE)] accepts the pattern. *)
Variable re_compiles : string -> bool.

Definition TrackerPattern_init (p c d : string) : result TrackerPattern :=
  if re_compiles p
  then Ok {| pattern := p; category := c; description := d |}
  else Raise (ReError p).

(** Evaluating [callee(pat, cat, descr)]: an unbound name raises
    [NameError]; the list display calls no bound name other than
    [TrackerPattern]. *)
Definition eval_call (c : call) : result TrackerPattern :=
  match c with
  | Call callee p cat d =>
      if decide (callee ∈ (module_names ++ builtin_names)%list)
      then if decide (callee = "TrackerPattern")
           then TrackerPattern_init p cat d
           else Raise TypeError
      else Raise (NameError callee)
  end.

(** A list display evaluates its elements from left to right. *)
Fixpoint eval_list (cs : list call) : result (list TrackerPattern) :=
  match cs with
  | [] => Ok []
  | c :: cs' =>
      f ← eval_call c;
      fs ← eval_list cs';
      Ok (f :: fs)
  end.

Definition _load_default_filters (self : TrackerBlocker) : result TrackerBlocker :=
  fs ← eval_list default_filter_entries;
  Ok {| enabled := enabled self;
        blocked_domains := blocked_domains self ∪ list_to_set common_trackers;
        whitelist := whitelist self;
        trackers := trackers self;
        stats := stats self;
        filters := fs |}.

Definition __init__ : result TrackerBlocker :=
  _load_default_filters
    {| enabled := true; blocked_domains := ∅; whitelist := ∅; trackers := ∅;
       stats := {| total_blocked := 0; by_category := ∅; by_domain := ∅ |};
       filters := [] |}.

End Construction.

(** *** Properties of [should_block] *)

Lemma index_split_0 c s : exists piece, PyStr.index (PyStr.split c s) 0 = Ok piece.
Proof.
  unfold PyStr.index. pose proof (PyStr.split_length c s) as Hlen.
  destruct (PyStr.split c s) as [|piece rest]; [discriminate | by exists piece].
Qed.

Lemma index_split_scheme url :
  PyStr.str_in "://" url = true ->
  exists piece, PyStr.index (PyStr.split "/" url) 2 = Ok piece.
Proof.
  intros [pre [post ->]]%PyStr.str_in_spec. unfold PyStr.index.
  pose proof (PyStr.split_length "/" (pre +:+ "://" +:+ post)) as Hlen.
  rewrite !PyStr.count_app in Hlen. simpl in Hlen.
  destruct (PyStr.split "/" (pre +:+ "://" +:+ post)) as [|p0 [|p1 [|p2 rest]]];
    simpl in Hlen; try lia.
  by exists p2.
Qed.

Lemma _extract_domain_total url : exists d, _extract_domain url = Ok d.
Proof.
  unfold _extract_domain.
  destruct (PyStr.str_in "://" url) eqn:Hscheme.
  - destruct (index_split_scheme url Hscheme) as [piece ->]. simpl.
    apply index_split_0.
  - destruct (index_split_0 "/" url) as [piece ->]. simpl.
    apply index_split_0.
Qed.

Lemma _record_block_records_hit self d c :
  records_hit self (_record_block self d c) d c.
Proof.
  unfold records_hit, _record_block, incr; simpl.
  repeat split; try apply lookup_insert_eq.
  rewrite lookup_alter_eq.
  destruct (trackers self !! d) as [t|] eqn:Hd.
  - by rewrite Hd.
  - by rewrite lookup_insert_eq.
Qed.

Section MatchingFacts.

Variable re_match : string -> string -> bool.

Lemma scan_filters_first_match self url d pre f post :
  Forall (fun g => re_match (pattern g) url = false) pre ->
  re_match (pattern f) url = true ->
  scan_filters re_match self url d (pre ++ f :: post)%list
  = (_record_block self d (category f), (true, Some f)).
Proof.
  intros Hpre Hf. induction Hpre as [|g pre Hg _ IH]; simpl.
  - by rewrite Hf.
  - by rewrite Hg.
Qed.

Lemma scan_filters_no_match self url d fs :
  Forall (fun g => re_match (pattern g) url = false) fs ->
  scan_filters re_match self url d fs = (self, (false, None)).
Proof.
  intros Hfs. induction Hfs as [|g fs Hg _ IH]; simpl; [done|]. by rewrite Hg.
Qed.

(** C1: [should_block] never raises and decides in this order: a disabled
    blocker allows; a whitelisted domain allows; a domain of the blocked set
    blocks and records a hit for the domain; otherwise the first filter of
    the list that matches the url blocks with that filter and records a hit
    under its category; with no matching filter the url is allowed. *)
Theorem should_block_order (self : TrackerBlocker) (url page_domain : string) :
  exists d, _extract_domain url = Ok d /\
    (enabled self = false ->
       should_block re_match self url page_domain = Ok (self, (false, None))) /\
    (enabled self = true -> d ∈ whitelist self ->
       should_block re_match self url page_domain = Ok (self, (false, None))) /\
    (enabled self = true -> d ∉ whitelist self -> d ∈ blocked_domains self ->
       exists self',
         should_block re_match self url page_domain = Ok (self', (true, None)) /\
         records_hit self self' d "manual") /\
    (enabled self = true -> d ∉ whitelist self -> d ∉ blocked_domains self ->
       forall pre f post,
         filters self = (pre ++ f :: post)%list ->
         Forall (fun g => re_match (pattern g) url = false) pre ->
         re_match (pattern f) url = true ->
         exists self',
           should_block re_match self url page_domain = Ok (self', (true, Some f)) /\
           records_hit self self' d (category f)) /\
    (enabled self = true -> d ∉ whitelist self -> d ∉ blocked_domains self ->
       Forall (fun g => re_match (pattern g) url = false) (filters self) ->
       should_block re_match self url page_domain = Ok (self, (false, None))).
Proof.
  destruct (_extract_domain_total url) as [d Hd]. exists d.
  unfold should_block. rewrite Hd. simpl.
  split; [done|]. split; [by intros ->|].
  split; [intros -> Hw; simpl; by rewrite decide_True|].
  split.
  { intros -> Hw Hb. simpl. rewrite decide_False, decide_True by done.
    eexists. split; [done|]. apply _record_block_records_hit. }
  split.
  { intros -> Hw Hb pre f post Hfs Hpre Hf. simpl.
    rewrite !decide_False by done. rewrite Hfs.
    rewrite (scan_filters_first_match _ _ _ _ _ _ Hpre Hf).
    eexists. split; [done|]. apply _record_block_records_hit. }
  intros -> Hw Hb Hfs. simpl. rewrite !decide_False by done.
  by rewrite scan_filters_no_match.
Qed.

End MatchingFacts.

(** *** Properties of the constructor *)

Section ConstructionFacts.

Variable re_compiles : string -> bool.

Lemma eval_list_unbound pre callee p c d post :
  callee ∉ (module_names ++ builtin_names)%list ->
  (forall e, eval_list re_compiles pre <> Raise e) ->
  eval_list re_compiles (pre ++ Call callee p c d :: post)%list
  = Raise (NameError callee).
Proof.
  intros Hunbound. induction pre as [|c0 pre IH]; simpl; intros Hpre.
  - by rewrite decide_False.
  - destruct (eval_call re_compiles c0) as [f|e] eqn:Hc0; simpl in *.
    + rewrite IH; [done|]. intros e He. apply (Hpre e). by rewrite He.
    + by destruct (Hpre e).
Qed.

Lemma eval_list_raises pre callee p c d post :
  callee ∉ (module_names ++ builtin_names)%list ->
  exists e, eval_list re_compiles (pre ++ Call callee p c d :: post)%list = Raise e.
Proof.
  intros Hunbound. induction pre as [|c0 pre [e IH]]; simpl.
  - rewrite decide_False by done. eauto.
  - rewrite IH. destruct (eval_call re_compiles c0); simpl; eauto.
Qed.

Lemma eval_list_compiles cs :
  Forall (fun c => match c with
                   | Call callee p _ _ => callee = "TrackerPattern" /\ re_compiles p = true
                   end) cs ->
  forall e, eval_list re_compiles cs <> Raise e.
Proof.
  induction 1 as [|[callee p c d] cs [-> Hp] _ IH]; intros e; simpl; [done|].
  unfold TrackerPattern_init. rewrite Hp. simpl.
  destruct (eval_list re_compiles cs) eqn:Hcs; simpl; [done|]. by destruct (IH e0).
Qed.

(** The entries written before and after the misspelt one. *)
Definition entries_before : list call := take 50 default_filter_entries.
Definition entries_after : list call := drop 51 default_filter_entries.

Lemma default_filter_entries_split :
  default_filter_entries
  = (entries_before
     ++ Call "TrackerTrackerPattern" ".*\.bidswitch\.net" "advertising" "BidSwitch"
     :: entries_after)%list.
Proof. reflexivity. Qed.

Lemma TrackerTrackerPattern_unbound :
  "TrackerTrackerPattern" ∉ (module_names ++ builtin_names)%list.
Proof. apply (bool_decide_unpack _). vm_compute. exact I. Qed.

(** C2: constructing a [TrackerBlocker] never yields an instance: building
    the default filter list raises, and when [re] accepts the patterns
    written before it the error is the [NameError] of the entry spelt
    [TrackerTrackerPattern]. *)
Theorem init_never_constructs :
  (forall tb, __init__ re_compiles <> Ok tb) /\
  (Forall (fun c => match c with Call _ p _ _ => re_compiles p = true end)
          entries_before ->
   __init__ re_compiles = Raise (NameError "TrackerTrackerPattern")).
Proof.
  unfold __init__, _load_default_filters.
  rewrite default_filter_entries_split. split.
  - intros tb.
    destruct (eval_list_raises entries_before _ ".*\.bidswitch\.net" "advertising"
                "BidSwitch" entries_after TrackerTrackerPattern_unbound) as [e ->].
    done.
  - intros Hre. rewrite eval_list_unbound; [done | apply TrackerTrackerPattern_unbound |].
    apply eval_list_compiles.
    assert (Forall (fun c => match c with Call callee _ _ _ => callee = "TrackerPattern" end)
                   entries_before) as Hnames.
    { unfold entries_before. simpl. repeat (constructor; [reflexivity|]). constructor. }
    revert Hre Hnames. generalize entries_before.
    induction 1 as [|[callee p c d] cs Hp _ IH]; intros Hn; [constructor|].
    inversion Hn; subst. constructor; [done | by apply IH].
Qed.

End ConstructionFacts.

(** *** Runs *)

Example _extract_domain_scheme :
  _extract_domain "https://ads.example.com:8080/pixel?id=1" = Ok "ads.example.com".
Proof. reflexivity. Qed.

Example _extract_domain_bare :
  _extract_domain "example.com/path/to" = Ok "example.com".
Proof. reflexivity. Qed.

Example init_raises_on_any_re :
  __init__ (fun _ => true) = Raise (NameError "TrackerTrackerPattern").
Proof. reflexivity. Qed.

(** A blocker written down field by field, and an [re] that knows the one
    pattern of its filter list. *)
Definition small_blocker : TrackerBlocker :=
  {| enabled := true;
     blocked_domains := {[ "doubleclick.net" ]};
     whitelist := {[ "static.hotjar.com" ]};
     trackers := ∅;
     stats := {| total_blocked := 0; by_category := ∅; by_domain := ∅ |};
     filters := [{| pattern := ".*\.hotjar\.com"; category := "analytics";
                    description := "Hotjar" |}] |}.

Definition hotjar_only (p url : string) : bool :=
  bool_decide (p = ".*\.hotjar\.com") && PyStr.str_in ".hotjar.com" url.

Example should_block_runs :
  (snd <$> should_block hotjar_only small_blocker "https://static.hotjar.com/c.js" "")
  = Ok (false, None) /\
  (snd <$> should_block hotjar_only small_blocker "https://doubleclick.net/ad" "")
  = Ok (true, None) /\
  (snd <$> should_block hotjar_only small_blocker "https://script.hotjar.com/h.js" "")
  = Ok (true, Some {| pattern := ".*\.hotjar\.com"; category := "analytics";
                      description := "Hotjar" |}) /\
  (snd <$> should_block hotjar_only small_blocker "https://example.com/" "")
  = Ok (false, None).
Proof. repeat split; vm_compute; reflexivity. Qed.

(** *** Filters, domain lists and statistics *)

(** [add_filter(pattern, category, description)]: a pattern that [re]
    rejects is dropped by the bare [except]. *)
Definition add_filter (re_compiles : string -> bool) (self : TrackerBlocker)
    (p c d : string) : TrackerBlocker :=
  match TrackerPattern_init re_compiles p c d with
  | Ok tracker_filter =>
      {| enabled := enabled self; blocked_domains := blocked_domains self;
         whitelist := whitelist self; trackers := trackers self;
         stats := stats self;
         filters := (filters self ++ [tracker_filter])%list |}
  | Raise _ => self
  end.

Definition remove_filter (self : TrackerBlocker) (p : string) : TrackerBlocker :=
  {| enabled := enabled self; blocked_domains := blocked_domains self;
     whitelist := whitelist self; trackers := trackers self; stats := stats self;
     filters := filter (fun f => pattern f ≠ p) (filters self) |}.

Definition block_domain (self : TrackerBlocker) (d : string) : TrackerBlocker :=
  {| enabled := enabled self; blocked_domains := blocked_domains self ∪ {[ d ]};
     whitelist := whitelist self; trackers := trackers self; stats := stats self;
     filters := filters self |}.


Definition whitelist_domain (self : TrackerBlocker) (d : string) : TrackerBlocker :=
  {| enabled := enabled self; blocked_domains := blocked_domains self;
     whitelist := whitelist self ∪ {[ d ]}; trackers := trackers self;
     stats := stats self; filters := filters self |}.




Definition get_category_stats (self : TrackerBlocker) : gmap string Z :=
  by_category (stats self).




Section FilterFacts.

Variable re_match : string -> string -> bool.

Lemma scan_filters_cases self url d fs :
  (scan_filters re_match self url d fs = (self, (false, None)) /\
   Forall (fun g => re_match (pattern g) url = false) fs) \/
  (exists pre f post,
     fs = (pre ++ f :: post)%list /\
     Forall (fun g => re_match (pattern g) url = false) pre /\
     re_match (pattern f) url = true /\
     scan_filters re_match self url d fs
     = (_record_block self d (category f), (true, Some f))).
Proof.
  induction fs as [|g fs IH]; simpl.
  - left. split; [done | constructor].
  - destruct (re_match (pattern g) url) eqn:Hg.
    + right. exists [], g, fs. repeat split; [constructor | done].
    + destruct IH as [[-> Hfs] | (pre & f & post & -> & Hpre & Hf & ->)].
      * left. split; [done | by constructor].
      * right. exists (g :: pre), f, post. repeat split; [by constructor | done].
Qed.


(** X2: the whitelist wins over the block list.  Once a domain is
    whitelisted, an enabled blocker allows every url of that domain and
    records nothing, whether or not the domain is also blocked or a filter
    matches; a blocked domain that is not whitelisted is blocked as
    "manual" before any filter is looked at. *)
Theorem whitelist_wins (self : TrackerBlocker) (url page_domain d : string) :
  _extract_domain url = Ok d ->
  enabled self = true ->
  should_block re_match (whitelist_domain (block_domain self d) d) url page_domain
  = Ok (whitelist_domain (block_domain self d) d, (false, None)) /\
  should_block re_match (block_domain (whitelist_domain self d) d) url page_domain
  = Ok (block_domain (whitelist_domain self d) d, (false, None)) /\
  (d ∉ whitelist self ->
   should_block re_match (block_domain self d) url page_domain
   = Ok (_record_block (block_domain self d) d "manual", (true, None))).
Proof.
  intros Hd Hen. unfold should_block. simpl. rewrite Hen, Hd. simpl.
  split; [rewrite decide_True by set_solver; done|].
  split; [rewrite decide_True by set_solver; done|].
  intros Hw. rewrite decide_False by done. rewrite decide_True by set_solver. done.
Qed.

End FilterFacts.

Section FilterListFacts.

Variable re_match : string -> string -> bool.
Variable re_compiles : string -> bool.

(** The verdict of the filter loop does not depend on the blocker. *)
Lemma scan_filters_verdict self self2 url d d2 fs :
  (scan_filters re_match self url d fs).2 = (scan_filters re_match self2 url d2 fs).2.
Proof.
  induction fs as [|g fs IH]; simpl; [done|]. by destruct (re_match (pattern g) url).
Qed.

Lemma scan_filters_snoc self url d fs f :
  (scan_filters re_match self url d (fs ++ [f])).2
  = if (scan_filters re_match self url d fs).2.1
    then (scan_filters re_match self url d fs).2
    else if re_match (pattern f) url then (true, Some f) else (false, None).
Proof.
  induction fs as [|g fs IH]; simpl.
  - by destruct (re_match (pattern f) url).
  - by destruct (re_match (pattern g) url).
Qed.

(** X3: [add_filter] appends.  A pattern that [re] rejects leaves the
    blocker as it is.  An accepted pattern goes to the end of the filter
    list, so a url that was blocked keeps its verdict and its filter, and a
    url that was allowed is blocked by the new filter exactly when the
    blocker is enabled, the url's domain is not whitelisted and the new
    pattern matches. *)
Theorem add_filter_appends (self : TrackerBlocker) (p c d url page_domain : string) :
  (re_compiles p = false -> add_filter re_compiles self p c d = self) /\
  (re_compiles p = true ->
   let added := {| pattern := p; category := c; description := d |} in
   let self2 := add_filter re_compiles self p c d in
   filters self2 = (filters self ++ [added])%list /\
   (forall self' r,
      should_block re_match self url page_domain = Ok (self', (true, r)) ->
      snd <$> should_block re_match self2 url page_domain = Ok (true, r)) /\
   (forall self',
      should_block re_match self url page_domain = Ok (self', (false, None)) ->
      re_match p url = false ->
      should_block re_match self2 url page_domain = Ok (self2, (false, None))) /\
   (forall self' dom,
      should_block re_match self url page_domain = Ok (self', (false, None)) ->
      enabled self = true -> _extract_domain url = Ok dom -> dom ∉ whitelist self ->
      re_match p url = true ->
      should_block re_match self2 url page_domain
      = Ok (_record_block self2 dom c, (true, Some added)))).
Proof.
  unfold add_filter, TrackerPattern_init. split; [by intros ->|].
  intros ->. simpl. split; [done|].
  set (added := {| pattern := p; category := c; description := d |}).
  set (self2 := {| enabled := enabled self; blocked_domains := blocked_domains self;
                   whitelist := whitelist self; trackers := trackers self;
                   stats := stats self; filters := (filters self ++ [added])%list |}).
  unfold should_block. simpl.
  destruct (enabled self) eqn:Hen; simpl.
  2:{ split; [intros; by simplify_eq|]. split; [done|]. intros; by simplify_eq. }
  destruct (_extract_domain url) as [dom|e]; simpl.
  2:{ split; [intros; by simplify_eq|]. split; intros; by simplify_eq. }
  destruct (decide (dom ∈ whitelist self)) as [Hw|Hw].
  { split; [intros; by simplify_eq|]. split; [done|]. intros; by simplify_eq. }
  destruct (decide (dom ∈ blocked_domains self)) as [Hb|Hb].
  { split; [intros; by simplify_eq|]. split; intros; by simplify_eq. }
  pose proof (scan_filters_snoc self2 url dom (filters self) added) as Hsnoc.
  rewrite (scan_filters_verdict self2 self url dom dom (filters self)) in Hsnoc.
  destruct (scan_filters_cases re_match self url dom (filters self))
    as [[Hscan Hnone] | (pre & f & post & Hfs & Hpre & Hf & Hscan)];
    rewrite Hscan in *; simpl in Hsnoc.
  - split; [intros; by simplify_eq|]. split.
    + intros _ _ Hp. f_equal. apply scan_filters_no_match.
      apply Forall_app. split; [done|]. by repeat constructor.
    + intros ? dom' _ _ ? _ Hp. simplify_eq. f_equal.
      by apply scan_filters_first_match.
  - split.
    + intros ? r ?. simplify_eq. simpl. f_equal.
      destruct (scan_filters re_match self2 url dom (filters self ++ [added])) as [s v].
      simpl in *. done.
    + split; intros; by simplify_eq.
Qed.

(** X4: what a verdict means.  [should_block] never changes the switch,
    the whitelist, the blocked domains or the filters.  An allowing verdict
    changes nothing at all and names no filter.  A blocking verdict counts
    exactly one more block; without a filter it means that the url's domain
    is a blocked domain, with a filter it means that the domain is not
    blocked as such and that the filter is one of the list and matches the
    url; in both cases the blocker is enabled and the domain is not
    whitelisted. *)
Theorem should_block_sound (self self' : TrackerBlocker) (url page_domain : string)
    (blocked : bool) (r : option TrackerPattern) :
  should_block re_match self url page_domain = Ok (self', (blocked, r)) ->
  enabled self' = enabled self /\ whitelist self' = whitelist self /\
  blocked_domains self' = blocked_domains self /\ filters self' = filters self /\
  (blocked = false -> self' = self /\ r = None) /\
  (blocked = true ->
   enabled self = true /\
   total_blocked (stats self') = total_blocked (stats self) + 1 /\
   exists d, _extract_domain url = Ok d /\ (d ∉ whitelist self) /\
     match r with
     | None => d ∈ blocked_domains self
     | Some f => (d ∉ blocked_domains self) /\ f ∈ filters self /\
                 re_match (pattern f) url = true
     end).
Proof.
  unfold should_block. destruct (enabled self) eqn:Hen; simpl.
  2:{ intros ?; simplify_eq. by repeat split. }
  destruct (_extract_domain url) as [d|e]; simpl; [|done].
  destruct (decide (d ∈ whitelist self)) as [Hw|Hw].
  { intros ?; simplify_eq. by repeat split. }
  destruct (decide (d ∈ blocked_domains self)) as [Hb|Hb].
  { intros ?; simplify_eq. simpl. do 4 (split; [done|]). split; [done|].
    intros _. do 2 (split; [done|]). by exists d. }
  destruct (scan_filters_cases re_match self url d (filters self))
    as [[-> Hnone] | (pre & f & post & Hfs & Hpre & Hf & ->)].
  - intros ?; simplify_eq. by repeat split.
  - intros ?; simplify_eq. simpl. do 4 (split; [done|]). split; [done|].
    intros _. do 2 (split; [done|]). exists d. do 3 (split; [done|]).
    split; [|done]. rewrite Hfs. apply elem_of_app. right. apply list_elem_of_here.
Qed.

(** X5: [remove_filter] removes by pattern.  Every filter with the pattern
    goes, also one that was there before a filter with the same pattern was
    added; the other filters stay in their order, and no later verdict
    names a filter with that pattern. *)
Theorem remove_filter_forgets (self : TrackerBlocker) (p : string) :
  (forall f, f ∈ filters (remove_filter self p) <-> f ∈ filters self /\ pattern f ≠ p) /\
  filters (remove_filter self p) `sublist_of` filters self /\
  (forall c d,
     remove_filter (add_filter re_compiles self p c d) p = remove_filter self p) /\
  (forall url page_domain self' blocked f,
     should_block re_match (remove_filter self p) url page_domain
     = Ok (self', (blocked, Some f)) ->
     pattern f ≠ p /\ f ∈ filters self).
Proof.
  split; [|split; [|split]].
  - intros f. unfold remove_filter; simpl. rewrite list_elem_of_filter. tauto.
  - apply sublist_filter.
  - intros c d. unfold add_filter, TrackerPattern_init, remove_filter.
    destruct (re_compiles p); [simpl|done]. f_equal.
    rewrite filter_app, filter_cons_False, filter_nil by (by intros []).
    by rewrite app_nil_r.
  - intros url page_domain self' blocked f Hverdict.
    unfold should_block in Hverdict. simpl in Hverdict.
    destruct (enabled self); simpl in Hverdict; [|done].
    destruct (_extract_domain url) as [d|e]; simpl in Hverdict; [|done].
    case_decide; [done|]. case_decide; [done|].
    destruct (scan_filters_cases re_match (remove_filter self p) url d
                (filter (fun f => pattern f ≠ p) (filters self)))
      as [[Hscan _] | (pre & g & post & Hfs & _ & _ & Hscan)];
      rewrite Hscan in Hverdict; [done|].
    injection Hverdict as _ _ <-.
    assert (g ∈ filter (fun f => pattern f ≠ p) (filters self)) as Hg.
    { rewrite Hfs. apply elem_of_app. right. apply list_elem_of_here. }
    apply list_elem_of_filter in Hg. tauto.
Qed.

End FilterListFacts.


Lemma whitelist_wins_witness :
  should_block hotjar_only
    (whitelist_domain (block_domain small_blocker "script.hotjar.com") "script.hotjar.com")
    "https://script.hotjar.com/h.js" ""
  = Ok (whitelist_domain (block_domain small_blocker "script.hotjar.com")
          "script.hotjar.com", (false, None)).
Proof.
  apply (whitelist_wins hotjar_only small_blocker "https://script.hotjar.com/h.js" ""
           "script.hotjar.com"); reflexivity.
Defined.

Lemma should_block_sound_witness :
  total_blocked
    (stats (_record_block small_blocker "script.hotjar.com" "analytics"))
  = total_blocked (stats small_blocker) + 1.
Proof.
  assert (should_block hotjar_only small_blocker "https://script.hotjar.com/h.js" ""
          = Ok (_record_block small_blocker "script.hotjar.com" "analytics",
                (true, Some {| pattern := ".*\.hotjar\.com"; category := "analytics";
                               description := "Hotjar" |}))) as Hrun
    by reflexivity.
  destruct (should_block_sound hotjar_only _ _ _ _ _ _ Hrun)
    as (_ & _ & _ & _ & _ & Hblocked).
  destruct (Hblocked eq_refl) as (_ & Htotal & _). exact Htotal.
Defined.

End tracker_blocker.

(** ** bookmarks.py *)

Module bookmarks.

Record Bookmark := {
  url : string;
  title : string;
  folder : string;
  favicon : string;
  created_at : string
}.

(** [Bookmark(url, title, folder, favicon, created_at)]; [now] is what
    [datetime.now().isoformat()] returns when it is called. *)
Definition Bookmark_init (u t f fav : string) (created : option string)
    (now : string) : Bookmark :=
  {| url := u; title := t; folder := f; favicon := fav;
     created_at := PyStr.str_or created now |}.

(** A dict from [str] to [str], in insertion order. *)
Definition pydict := list (string * string).

Definition dict_get (k : string) (d : pydict) : option string :=
  snd <$> find (fun kv => bool_decide (kv.1 = k)) d.

Definition to_dict (b : Bookmark) : pydict :=
  [("url", url b); ("title", title b); ("folder", folder b);
   ("favicon", favicon b); ("created_at", created_at b)].

Definition Bookmark_params : list string :=
  ["url"; "title"; "folder"; "favicon"; "created_at"].

(** The constructor applied to [data] as keyword arguments: a key that is
    no parameter, or a missing [url] or [title], is a [TypeError]; the other parameters take their defaults. *)
Definition from_dict (data : pydict) (now : string) : result Bookmark :=
  if forallb (fun kv => bool_decide (kv.1 ∈ Bookmark_params)) data
  then match dict_get "url" data, dict_get "title" data with
       | Some u, Some t =>
           Ok (Bookmark_init u t
                 (default "default" (dict_get "folder" data))
                 (default "" (dict_get "favicon" data))
                 (dict_get "created_at" data) now)
       | _, _ => Raise TypeError
       end
  else Raise TypeError.

Record BookmarkManager := {
  bookmarks : list Bookmark;
  folders : gmap string string
}.

(** The parsed content of bookmarks.json: each of the two keys may be
    missing.  [json.dump] followed by [json.load] is taken to give back the
    value that was written. *)
Record document := {
  doc_bookmarks : option (list pydict);
  doc_folders : option (gmap string string)
}.

(** The file: absent, not loadable as such a document, or a document. *)
Inductive file :=
| Missing
| Unreadable
| Document (data : document).

(** The list comprehension of [_load]; the [i]-th constructor call reads
    the clock as [clock i]. *)
Fixpoint load_bookmarks (clock : nat -> string) (i : nat) (ds : list pydict)
    : result (list Bookmark) :=
  match ds with
  | [] => Ok []
  | d :: ds' =>
      b ← from_dict d (clock i);
      bs ← load_bookmarks clock (S i) ds';
      Ok (b :: bs)
  end.

Definition _load (clock : nat -> string) (f : file) (self : BookmarkManager)
    : BookmarkManager :=
  match f with
  | Missing => self
  | Unreadable => {| bookmarks := []; folders := folders self |}
  | Document data =>
      match load_bookmarks clock 0 (default [] (doc_bookmarks data)) with
      | Ok bs => {| bookmarks := bs;
                    folders := default (folders self) (doc_folders data) |}
      | Raise _ => {| bookmarks := []; folders := folders self |}
      end
  end.

(** What [_save] writes. *)
Definition _save (self : BookmarkManager) : file :=
  Document {| doc_bookmarks := Some (to_dict <$> bookmarks self);
              doc_folders := Some (folders self) |}.

Definition default_folders : gmap string string :=
  {[ "default" := "Default"; "work" := "Work"; "personal" := "Personal" ]}.

Definition __init__ (clock : nat -> string) (f : file) : BookmarkManager :=
  _load clock f {| bookmarks := []; folders := default_folders |}.

(** Each mutating operation returns the manager, the file it leaves and its
    return value. *)
Definition add (self : BookmarkManager) (u t f fav now : string)
    : BookmarkManager * file * Bookmark :=
  let bookmark := Bookmark_init u t f fav None now in
  let self' := {| bookmarks := bookmark :: bookmarks self;
                  folders := folders self |} in
  (self', _save self', bookmark).

Definition remove (self : BookmarkManager) (disk : file) (u : string)
    : BookmarkManager * file * bool :=
  let self' := {| bookmarks := filter (fun b => url b ≠ u) (bookmarks self);
                  folders := folders self |} in
  if decide (length (bookmarks self') < length (bookmarks self))%nat
  then (self', _save self', true)
  else (self', disk, false).

Definition get_all (self : BookmarkManager) : list Bookmark := bookmarks self.

Definition get_by_folder (self : BookmarkManager) (f : string) : list Bookmark :=
  filter (fun b => folder b = f) (bookmarks self).

Definition is_bookmarked (self : BookmarkManager) (u : string) : bool :=
  existsb (fun b => bool_decide (url b = u)) (bookmarks self).

Definition add_folder (self : BookmarkManager) (disk : file) (name : string)
    (display_name : option string) : BookmarkManager * file :=
  if decide (name ∈ dom (folders self)) then (self, disk)
  else
    let self' := {| bookmarks := bookmarks self;
                    folders := <[name := PyStr.str_or display_name name]> (folders self) |} in
    (self', _save self').

Definition set_folder (f : string) (b : Bookmark) : Bookmark :=
  {| url := url b; title := title b; folder := f; favicon := favicon b;
     created_at := created_at b |}.

Definition remove_folder (self : BookmarkManager) (disk : file) (name : string)
    : BookmarkManager * file :=
  if decide (name ∈ dom (folders self) /\ name ≠ "default")
  then
    let self' :=
      {| bookmarks := (fun b => if decide (folder b = name)
                                then set_folder "default" b else b)
                      <$> bookmarks self;
         folders := delete name (folders self) |} in
    (self', _save self')
  else (self, disk).

Section Search.

(** [str.lower] *)
Variable lower : string -> string.

Definition search (self : BookmarkManager) (query : string) : list Bookmark :=
  let query := lower query in
  filter (fun b => PyStr.str_in query (lower (title b))
                   || PyStr.str_in query (lower (url b)))
         (bookmarks self).

End Search.

(** The managers that a run of the program can hold: the constructor run on
    any file, then any sequence of operations.  The clock never returns the
    empty string. *)
Inductive reachable : BookmarkManager -> Prop :=
| reach_init clock f :
    (forall i, clock i ≠ "") -> reachable (__init__ clock f)
| reach_add self u t f fav now :
    reachable self -> now ≠ "" -> reachable (add self u t f fav now).1.1
| reach_remove self disk u :
    reachable self -> reachable (remove self disk u).1.1
| reach_add_folder self disk name display_name :
    reachable self -> reachable (add_folder self disk name display_name).1
| reach_remove_folder self disk name :
    reachable self -> reachable (remove_folder self disk name).1.

(** *** Save and load *)

(** Every constructed bookmark carries a non-empty creation time. *)
Definition stamped (b : Bookmark) : Prop := created_at b ≠ "".

Lemma Bookmark_init_stamped u t f fav created now :
  now ≠ "" -> stamped (Bookmark_init u t f fav created now).
Proof. intros Hnow. by apply PyStr.str_or_nonempty. Qed.

Lemma from_dict_stamped d now b :
  now ≠ "" -> from_dict d now = Ok b -> stamped b.
Proof.
  unfold from_dict. intros Hnow Hb.
  destruct (forallb _ d); [|done].
  destruct (dict_get "url" d); [|done].
  destruct (dict_get "title" d); [|done].
  injection Hb as <-. by apply Bookmark_init_stamped.
Qed.

Lemma load_bookmarks_stamped clock i ds bs :
  (forall j, clock j ≠ "") ->
  load_bookmarks clock i ds = Ok bs -> Forall stamped bs.
Proof.
  intros Hclock. revert i bs. induction ds as [|d ds IH]; intros i bs; simpl.
  - intros [= <-]. constructor.
  - destruct (from_dict d (clock i)) as [b|] eqn:Hb; [simpl|done].
    destruct (load_bookmarks clock (S i) ds) as [bs'|] eqn:Hbs; [simpl|done].
    intros [= <-]. constructor; [by eapply from_dict_stamped | by eapply IH].
Qed.

Lemma reachable_stamped self : reachable self -> Forall stamped (bookmarks self).
Proof.
  induction 1 as [clock f Hclock | self u t f fav now _ IH Hnow | self disk u _ IH
                 | self disk name display _ IH | self disk name _ IH].
  - unfold __init__, _load. destruct f as [| |data]; simpl; try constructor.
    destruct (load_bookmarks _ _ _) as [bs|] eqn:Hbs; simpl; [|constructor].
    by eapply load_bookmarks_stamped.
  - simpl. constructor; [by apply Bookmark_init_stamped | done].
  - unfold remove. case_decide; simpl; by apply Forall_filter_keeps.
  - unfold add_folder. by case_decide.
  - unfold remove_folder. case_decide; [simpl|done].
    apply Forall_fmap. eapply Forall_impl; [exact IH|].
    intros b Hb. simpl. by case_decide.
Qed.

Lemma from_dict_to_dict b now : stamped b -> from_dict (to_dict b) now = Ok b.
Proof.
  intros Hb. destruct b as [u t f fav c]. unfold stamped in Hb; simpl in Hb.
  unfold from_dict, to_dict, Bookmark_init, dict_get; simpl.
  by rewrite decide_False.
Qed.

Lemma from_dict_to_dict_init u t f fav created now now' :
  now ≠ "" ->
  from_dict (to_dict (Bookmark_init u t f fav created now)) now'
  = Ok (Bookmark_init u t f fav created now).
Proof. intros Hnow. by apply from_dict_to_dict, Bookmark_init_stamped. Qed.

Lemma load_bookmarks_to_dict clock i bs :
  Forall stamped bs -> load_bookmarks clock i (to_dict <$> bs) = Ok bs.
Proof.
  intros Hbs. revert i. induction Hbs as [|b bs Hb _ IH]; intros i; [done|].
  cbn [fmap list_fmap load_bookmarks].
  rewrite from_dict_to_dict by done. simpl. by rewrite IH.
Qed.

(** C3: every bookmark that the constructor builds is given back field for
    field by [from_dict] of its [to_dict]; so is every bookmark stored in a
    manager that the program can hold, and loading the document that
    [_save] writes restores the same bookmark list and the same folders
    map. *)
Theorem save_load_round_trip :
  (forall u t f fav created now now',
     now ≠ "" ->
     from_dict (to_dict (Bookmark_init u t f fav created now)) now'
     = Ok (Bookmark_init u t f fav created now)) /\
  (forall self : BookmarkManager,
     reachable self ->
     (forall b now, b ∈ bookmarks self ->
        from_dict (to_dict b) now = Ok b /\
        url <$> from_dict (to_dict b) now = Ok (url b) /\
        title <$> from_dict (to_dict b) now = Ok (title b) /\
        folder <$> from_dict (to_dict b) now = Ok (folder b) /\
        favicon <$> from_dict (to_dict b) now = Ok (favicon b) /\
        created_at <$> from_dict (to_dict b) now = Ok (created_at b)) /\
     (forall clock fresh,
        _load clock (_save self) fresh = self /\
        bookmarks (_load clock (_save self) fresh) = bookmarks self /\
        folders (_load clock (_save self) fresh) = folders self)).
Proof.
  split; [intros; by apply from_dict_to_dict_init|].
  intros self Hstamped%reachable_stamped. split.
  - intros b now Hb.
    rewrite from_dict_to_dict; [done|].
    by eapply (proj1 (Forall_forall _ _)) in Hstamped.
  - intros clock fresh.
    assert (_load clock (_save self) fresh = self) as ->; [|done].
    unfold _load, _save; simpl.
    rewrite load_bookmarks_to_dict by done. by destruct self.
Qed.

Definition sample_manager : BookmarkManager :=
  (add (__init__ (fun _ => "2024-05-01T10:00:00") Missing)
       "https://example.com" "Example" "default" "" "2024-05-01T10:00:01").1.1.

Lemma save_load_round_trip_witness :
  from_dict (to_dict (Bookmark_init "https://example.com" "Example" "default" ""
                        None "2024-05-01T10:00:01")) "2030-01-01T00:00:00"
  = Ok (Bookmark_init "https://example.com" "Example" "default" ""
          None "2024-05-01T10:00:01") /\
  _load (fun _ => "2030-01-01T00:00:00") (_save sample_manager)
        {| bookmarks := []; folders := default_folders |} = sample_manager.
Proof.
  assert (reachable sample_manager) as Hreach.
  { apply reach_add; [apply reach_init|]; done. }
  destruct save_load_round_trip as [Hinit Hall].
  split.
  - apply Hinit. discriminate.
  - apply (Hall sample_manager Hreach).
Defined.

(** *** Bookmarking, folders and the file *)

Lemma is_bookmarked_spec (self : BookmarkManager) u :
  is_bookmarked self u = true <-> u ∈ url <$> bookmarks self.
Proof.
  unfold is_bookmarked. rewrite existsb_exists, list_elem_of_fmap. split.
  - intros [b [Hb Hu]]. exists b. apply list_elem_of_In in Hb.
    by apply bool_decide_eq_true in Hu.
  - intros [b [-> Hb]]. exists b. apply list_elem_of_In in Hb.
    by rewrite bool_decide_eq_true.
Qed.

Lemma remove_shorter_iff (l : list Bookmark) u :
  (length (filter (fun b => url b ≠ u) l) < length l)%nat <-> u ∈ url <$> l.
Proof.
  rewrite filter_shorter_iff, list_elem_of_fmap. split.
  - intros [b [Hb Hu]]. exists b. split; [|done]. by destruct (decide (url b = u)).
  - intros [b [-> Hb]]. exists b. split; [done | by intros []].
Qed.

(** X6: bookmarking and unbookmarking.  [add] never looks for the url, so
    it always makes the list one longer, with the new bookmark first in the
    list and first in its folder; afterwards the url is bookmarked.
    [remove] drops every bookmark with the url and no other, answers
    whether there was one, and afterwards the url is not bookmarked. *)
Theorem bookmark_then_unbookmark (self : BookmarkManager) (disk : file)
    (u t f fav now : string) :
  let added := add self u t f fav now in
  is_bookmarked added.1.1 u = true /\
  length (bookmarks added.1.1) = S (length (bookmarks self)) /\
  head (get_all added.1.1) = Some added.2 /\
  head (get_by_folder added.1.1 f) = Some added.2 /\
  is_bookmarked (remove added.1.1 disk u).1.1 u = false /\
  (remove self disk u).2 = is_bookmarked self u /\
  is_bookmarked (remove self disk u).1.1 u = false /\
  (forall v, v ≠ u ->
     get_by_folder (remove self disk u).1.1 f
     = filter (fun b => url b ≠ u) (get_by_folder self f) /\
     is_bookmarked (remove self disk u).1.1 v = is_bookmarked self v).
Proof.
  assert (forall m d, bookmarks (remove m d u).1.1
                      = filter (fun b => url b ≠ u) (bookmarks m)) as Hremove.
  { intros m d. unfold remove. by case_decide. }
  assert (forall m d, is_bookmarked (remove m d u).1.1 u = false) as Hgone.
  { intros m d. apply not_true_iff_false. rewrite is_bookmarked_spec, Hremove.
    intros [b [-> [Hb _]%list_elem_of_filter]]%list_elem_of_fmap. by apply Hb. }
  simpl. split.
  { unfold is_bookmarked. simpl. by rewrite bool_decide_eq_true_2. }
  split; [done|]. split; [done|]. split.
  { unfold get_by_folder. simpl. by rewrite filter_cons_True. }
  split; [apply Hgone|]. split.
  { unfold remove. case_decide as Hlen; simpl.
    - symmetry. apply is_bookmarked_spec.
      by apply remove_shorter_iff in Hlen.
    - symmetry. apply not_true_iff_false. rewrite is_bookmarked_spec.
      intros Hin. by apply Hlen, remove_shorter_iff. }
  split; [apply Hgone|].
  intros v Hv. split.
  - unfold get_by_folder. rewrite Hremove.
    rewrite !list_filter_filter. apply list_filter_iff. tauto.
  - apply eq_true_iff_eq. rewrite !is_bookmarked_spec, Hremove, !list_elem_of_fmap.
    split.
    + intros [b [-> [_ Hb]%list_elem_of_filter]]. by exists b.
    + intros [b [-> Hb]]. exists b. split; [done|]. by apply list_elem_of_filter.
Qed.

(** A dict that the constructor refuses: no url, no title, or a key that is
    no parameter. *)
Definition malformed (d : pydict) : Prop :=
  dict_get "url" d = None \/ dict_get "title" d = None \/
  exists k, k ∈ d.*1 /\ k ∉ Bookmark_params.

Lemma from_dict_malformed d now : malformed d -> from_dict d now = Raise TypeError.
Proof.
  unfold from_dict. intros [Hu | [Ht | (k & Hk & Hparam)]].
  - rewrite Hu. by destruct (forallb _ d).
  - rewrite Ht. destruct (forallb _ d); [|done]. by destruct (dict_get "url" d).
  - destruct (forallb _ d) eqn:Hall; [|done]. exfalso.
    rewrite forallb_forall in Hall.
    apply list_elem_of_fmap in Hk as [[k' v] [-> Hkv]].
    apply list_elem_of_In, Hall, bool_decide_eq_true in Hkv. done.
Qed.

Lemma load_bookmarks_malformed clock i ds d :
  d ∈ ds -> malformed d -> exists e, load_bookmarks clock i ds = Raise e.
Proof.
  intros Hd Hbad. revert i. induction Hd as [d ds | d d' ds _ IH]; intros i; simpl.
  - rewrite from_dict_malformed by done. eauto.
  - destruct (from_dict d' (clock i)); simpl; [|eauto].
    destruct (IH Hbad (S i)) as [e ->]. eauto.
Qed.

Lemma load_bookmarks_length clock i ds bs :
  load_bookmarks clock i ds = Ok bs -> length bs = length ds.
Proof.
  revert i bs. induction ds as [|d ds IH]; intros i bs; simpl; [by intros [= <-]|].
  destruct (from_dict d (clock i)); simpl; [|done].
  destruct (load_bookmarks clock (S i) ds) eqn:Hds; simpl; [|done].
  intros [= <-]. simpl. f_equal. by eapply IH.
Qed.

(** X7: loading is all or nothing.  One stored dict without url or title,
    or with an unknown key, makes [_load] drop every bookmark of the file
    and keep the folders it had, whatever folders the file holds; so does a
    file that cannot be read.  Without a file nothing changes.  When the
    list does load, it has one bookmark per stored dict and the folders are
    those of the file. *)
Theorem load_all_or_nothing (clock : nat -> string) (self : BookmarkManager) :
  _load clock Missing self = self /\
  _load clock Unreadable self = {| bookmarks := []; folders := folders self |} /\
  (forall data d,
     d ∈ default [] (doc_bookmarks data) -> malformed d ->
     _load clock (Document data) self = {| bookmarks := []; folders := folders self |}) /\
  (forall data,
     bookmarks (_load clock (Document data) self) ≠ [] ->
     length (bookmarks (_load clock (Document data) self))
     = length (default [] (doc_bookmarks data)) /\
     folders (_load clock (Document data) self)
     = default (folders self) (doc_folders data)).
Proof.
  split; [done|]. split; [done|]. split.
  - intros data d Hd Hbad. unfold _load.
    by destruct (load_bookmarks_malformed clock 0 _ d Hd Hbad) as [e ->].
  - intros data. unfold _load.
    destruct (load_bookmarks clock 0 (default [] (doc_bookmarks data))) as [bs|] eqn:Hbs;
      simpl; [|done].
    intros _. split; [by eapply load_bookmarks_length | done].
Qed.

(** The file holds what the manager holds. *)
Definition synced (self : BookmarkManager) (disk : file) : Prop := disk = _save self.

Lemma reachable_restart self clock : reachable self -> __init__ clock (_save self) = self.
Proof.
  intros Hstamped%reachable_stamped. unfold __init__, _load, _save; simpl.
  rewrite load_bookmarks_to_dict by done. by destruct self.
Qed.

(** X8: nothing is lost over a restart.  When the file holds what a
    reachable manager holds, it still does after [add], [remove],
    [add_folder] and [remove_folder], also when the operation had nothing to
    write, and a manager constructed from the file that the operation leaves
    is the manager that the operation leaves. *)
Theorem restart_restores (self : BookmarkManager) (disk : file) :
  reachable self -> synced self disk ->
  (forall u t f fav now clock,
     now ≠ "" ->
     synced (add self u t f fav now).1.1 (add self u t f fav now).1.2 /\
     __init__ clock (add self u t f fav now).1.2 = (add self u t f fav now).1.1) /\
  (forall u clock,
     synced (remove self disk u).1.1 (remove self disk u).1.2 /\
     __init__ clock (remove self disk u).1.2 = (remove self disk u).1.1) /\
  (forall name display_name clock,
     synced (add_folder self disk name display_name).1
            (add_folder self disk name display_name).2 /\
     __init__ clock (add_folder self disk name display_name).2
     = (add_folder self disk name display_name).1) /\
  (forall name clock,
     synced (remove_folder self disk name).1 (remove_folder self disk name).2 /\
     __init__ clock (remove_folder self disk name).2 = (remove_folder self disk name).1).
Proof.
  intros Hreach Hsync.
  assert (forall m d clock, reachable m -> synced m d -> synced m d /\ __init__ clock d = m)
    as Hboth.
  { intros m d clock Hm Hd. split; [done|]. rewrite Hd. by apply reachable_restart. }
  split; [|split; [|split]].
  - intros u t f fav now clock Hnow. apply Hboth; [by apply reach_add | done].
  - intros u clock. apply Hboth; [by apply reach_remove|].
    unfold remove. case_decide as Hlen; simpl; [done|].
    rewrite filter_same_length by done. unfold synced in *. rewrite Hsync.
    by destruct self.
  - intros name display_name clock. apply Hboth; [by apply reach_add_folder|].
    unfold add_folder. by case_decide.
  - intros name clock. apply Hboth; [by apply reach_remove_folder|].
    unfold remove_folder. by case_decide.
Qed.

Lemma restart_restores_witness :
  __init__ (fun _ => "2031-01-01T00:00:00")
    (remove sample_manager (_save sample_manager) "https://example.com").1.2
  = (remove sample_manager (_save sample_manager) "https://example.com").1.1.
Proof.
  assert (reachable sample_manager) as Hreach.
  { apply reach_add; [apply reach_init|]; done. }
  destruct (restart_restores sample_manager (_save sample_manager) Hreach eq_refl)
    as (_ & Hremove & _).
  apply Hremove.
Defined.

(** X9: removing a folder moves its bookmarks to "default".  For a folder
    other than "default" that exists, the folder is gone afterwards and
    holds no bookmark, every bookmark is still there with its url and title,
    and "default" holds, in their order, the bookmarks that were in
    "default" or in the removed folder.  Removing "default" or a folder that
    does not exist changes nothing and writes nothing. *)
Theorem remove_folder_moves (self : BookmarkManager) (disk : file) (name : string) :
  (name = "default" \/ name ∉ dom (folders self) ->
   remove_folder self disk name = (self, disk)) /\
  (name ≠ "default" -> name ∈ dom (folders self) ->
   let self' := (remove_folder self disk name).1 in
   (name ∉ dom (folders self')) /\
   get_by_folder self' name = [] /\
   (fun b => (url b, title b, favicon b, created_at b)) <$> bookmarks self'
   = (fun b => (url b, title b, favicon b, created_at b)) <$> bookmarks self /\
   url <$> get_by_folder self' "default"
   = url <$> filter (fun b => folder b = "default" \/ folder b = name) (bookmarks self) /\
   (forall f, f ≠ "default" -> f ≠ name ->
      get_by_folder self' f = get_by_folder self f)).
Proof.
  unfold remove_folder. split.
  - intros Hnoop. rewrite decide_False; [done|]. tauto.
  - intros Hname Hdom. rewrite decide_True by done. simpl.
    unfold get_by_folder; simpl.
    split.
    { rewrite dom_delete_L. intros [_ Hn]%elem_of_difference.
      by apply Hn, elem_of_singleton. }
    induction (bookmarks self) as [|b bs (IH1 & IH2 & IH3 & IH4)]; [done|].
    rewrite !fmap_cons.
    destruct (decide (folder b = name)) as [Hb|Hb].
    + rewrite filter_cons_False by (simpl; congruence).
      rewrite filter_cons_True by done.
      rewrite (filter_cons_True (fun b0 => folder b0 = "default" \/ folder b0 = name))
        by tauto.
      rewrite !fmap_cons. simpl. rewrite IH2, IH3.
      repeat split; try done.
      intros f Hf1 Hf2. rewrite filter_cons_False by (simpl; congruence).
      rewrite filter_cons_False by congruence. by apply IH4.
    + rewrite filter_cons_False by done. split; [done|]. rewrite IH2.
      split; [done|]. split.
      * destruct (decide (folder b = "default")) as [Hd|Hd].
        -- rewrite !filter_cons_True by tauto. rewrite !fmap_cons. by rewrite IH3.
        -- rewrite !filter_cons_False by tauto. done.
      * intros f Hf1 Hf2. destruct (decide (folder b = f)) as [Hf|Hf].
        -- rewrite !filter_cons_True by done. f_equal. by apply IH4.
        -- rewrite !filter_cons_False by done. by apply IH4.
Qed.

End bookmarks.

(** ** history.py *)

Module history.

Record HistoryEntry := {
  url : string;
  title : string;
  visit_count : Z;
  last_visit : string;
  favicon : string;
  first_visit : string
}.

(** [HistoryEntry(url, title, visit_count, last_visit, favicon)]; the clock
    is read once for [last_visit] and once for [first_visit]. *)
Definition HistoryEntry_init (u t : string) (n : Z) (last : option string)
    (fav now now' : string) : HistoryEntry :=
  {| url := u; title := t; visit_count := n;
     last_visit := PyStr.str_or last now; favicon := fav;
     first_visit := PyStr.str_or last now' |}.

(** Every mutating operation ends by writing the list to history.json; the
    file is read by the constructor only and is left out of the state. *)
Record HistoryManager := {
  history : list HistoryEntry;
  max_entries : Z
}.

(** A manager built where no history file exists. *)
Definition __init__ (max : Z) : HistoryManager :=
  {| history := []; max_entries := max |}.

(** The loop of [add]: the first entry with the url, and the list that
    [self.history.remove(entry)] leaves. *)
Fixpoint take_first (u : string) (l : list HistoryEntry)
    : option (HistoryEntry * list HistoryEntry) :=
  match l with
  | [] => None
  | entry :: l' =>
      if decide (url entry = u) then Some (entry, l')
      else match take_first u l' with
           | Some (found, rest) => Some (found, entry :: rest)
           | None => None
           end
  end.

(** The three assignments of [add] to an entry that is visited again. *)
Definition revisit (entry : HistoryEntry) (t now : string) : HistoryEntry :=
  {| url := url entry;
     title := PyStr.str_or (Some t) (title entry);
     visit_count := visit_count entry + 1;
     last_visit := now;
     favicon := favicon entry;
     first_visit := first_visit entry |}.

Definition add (self : HistoryManager) (u t fav now now' : string) : HistoryManager :=
  match take_first u (history self) with
  | Some (entry, rest) =>
      {| history := revisit entry t now :: rest; max_entries := max_entries self |}
  | None =>
      let entry := HistoryEntry_init u (PyStr.str_or (Some t) u) 1 None fav now now' in
      let h := entry :: history self in
      {| history := if decide (max_entries self < Z.of_nat (length h))
                    then PyStr.slice_to (max_entries self) h else h;
         max_entries := max_entries self |}
  end.

Definition remove (self : HistoryManager) (u : string) : HistoryManager * bool :=
  let h := filter (fun e => url e ≠ u) (history self) in
  ({| history := h; max_entries := max_entries self |},
   bool_decide (length h < length (history self))%nat).

Definition clear (self : HistoryManager) : HistoryManager :=
  {| history := []; max_entries := max_entries self |}.

(** [get_all(limit)]; the default limit is 100. *)
Definition get_all (self : HistoryManager) (limit : Z) : list HistoryEntry :=
  PyStr.slice_to limit (history self).

Section Search.

Variable lower : string -> string.

(** [search(query, limit)]; the default limit is 50. *)
Definition search (self : HistoryManager) (query : string) (limit : Z)
    : list HistoryEntry :=
  let query := lower query in
  PyStr.slice_to limit
    (filter (fun h => PyStr.str_in query (lower (title h))
                      || PyStr.str_in query (lower (url h)))
            (history self)).

End Search.

(** No two entries share a url. *)
Definition unique_urls (self : HistoryManager) : Prop :=
  NoDup (url <$> history self).

(** *** The url invariant *)

Lemma take_first_None u (l : list HistoryEntry) : take_first u l = None -> u ∉ url <$> l.
Proof.
  induction l as [|e l IH]; simpl; [intros _; apply not_elem_of_nil|].
  case_decide; [done|].
  destruct (take_first u l) as [[found rest]|]; [done|].
  intros _. apply not_elem_of_cons. split; [done | by apply IH].
Qed.

Lemma filter_other_urls u (l : list HistoryEntry) :
  u ∉ url <$> l -> filter (fun e => url e ≠ u) l = l.
Proof.
  induction l as [|e l IH]; [done|]. rewrite fmap_cons, not_elem_of_cons.
  intros [Hne Hl]. rewrite filter_cons_True by done. by rewrite IH.
Qed.

Lemma take_first_unique u (l : list HistoryEntry) entry :
  NoDup (url <$> l) -> entry ∈ l -> url entry = u ->
  take_first u l = Some (entry, filter (fun e => url e ≠ u) l).
Proof.
  induction l as [|e l IH]; [by intros _ ?%elem_of_nil|].
  rewrite fmap_cons, NoDup_cons. intros [Hfresh Hdup] Hin Hu. simpl.
  apply elem_of_cons in Hin as [->|Hin].
  - rewrite decide_True by done. rewrite filter_cons_False by (by intros []).
    rewrite filter_other_urls; [done | by rewrite <- Hu].
  - assert (url e ≠ u) as Hne.
    { intros He. apply Hfresh. rewrite He, <- Hu. by apply list_elem_of_fmap_2. }
    rewrite decide_False by done. rewrite (IH Hdup Hin Hu).
    by rewrite filter_cons_True.
Qed.

Lemma take_first_found u (l : list HistoryEntry) entry rest :
  take_first u l = Some (entry, rest) -> entry ∈ l /\ url entry = u.
Proof.
  revert rest. induction l as [|e l IH]; intros rest; simpl; [done|].
  case_decide as He.
  - intros [= <- <-]. split; [apply list_elem_of_here | done].
  - destruct (take_first u l) as [[found rest']|]; [|done].
    intros [= <- <-]. destruct (IH _ eq_refl) as [Hin Hu].
    split; [by apply list_elem_of_further | done].
Qed.

Lemma unique_filter u (l : list HistoryEntry) :
  NoDup (url <$> l) ->
  NoDup (url <$> filter (fun e => url e ≠ u) l) /\
  u ∉ url <$> filter (fun e => url e ≠ u) l.
Proof.
  intros Hdup. split.
  - eapply sublist_NoDup; [exact Hdup|]. apply fmap_sublist, sublist_filter.
  - intros [e [-> [He _]%list_elem_of_filter]]%list_elem_of_fmap. by apply He.
Qed.

Lemma add_unique_urls self u t fav now now' :
  unique_urls self -> unique_urls (add self u t fav now now').
Proof.
  unfold unique_urls, add. intros Hdup.
  destruct (take_first u (history self)) as [[entry rest]|] eqn:Hfirst.
  - destruct (take_first_found _ _ _ _ Hfirst) as [Hin Hu].
    rewrite (take_first_unique u _ entry Hdup Hin Hu) in Hfirst.
    injection Hfirst as <-. simpl. rewrite Hu.
    apply NoDup_cons. destruct (unique_filter u _ Hdup). done.
  - apply take_first_None in Hfirst. cbn [history].
    eapply sublist_NoDup; [apply NoDup_cons; split; [exact Hfirst | exact Hdup]|].
    change (u :: (url <$> history self))
      with (url <$> HistoryEntry_init u (PyStr.str_or (Some t) u) 1 None fav now now'
                    :: history self).
    apply fmap_sublist. case_decide; [apply PyStr.slice_to_sublist | done].
Qed.

Lemma add_revisits self u t fav now now' entry :
  unique_urls self -> entry ∈ history self -> url entry = u ->
  history (add self u t fav now now')
  = revisit entry t now :: filter (fun e => url e ≠ u) (history self).
Proof.
  intros Hdup Hin Hu. unfold add.
  by rewrite (take_first_unique u _ entry Hdup Hin Hu).
Qed.

(** C10: every operation keeps the urls of the history pairwise distinct;
    [add] on a url that is present inserts nothing: the entry is moved to
    the front with its visit count incremented, its last visit set to the
    clock and its title set to the given title (kept when none is given),
    and the other entries follow in their order. *)
Theorem history_unique_urls (self : HistoryManager) :
  unique_urls self ->
  (forall u t fav now now', unique_urls (add self u t fav now now')) /\
  (forall u, unique_urls (remove self u).1) /\
  unique_urls (clear self) /\
  (forall u t fav now now' entry,
     entry ∈ history self -> url entry = u ->
     history (add self u t fav now now')
     = {| url := u;
          title := if decide (t = "") then title entry else t;
          visit_count := visit_count entry + 1;
          last_visit := now;
          favicon := favicon entry;
          first_visit := first_visit entry |}
       :: filter (fun e => url e ≠ u) (history self) /\
     length (history (add self u t fav now now')) = length (history self)).
Proof.
  intros Hdup. split; [|split; [|split]].
  - intros. by apply add_unique_urls.
  - intros u. unfold unique_urls, remove. simpl.
    by destruct (unique_filter u _ Hdup).
  - apply NoDup_nil_2.
  - intros u t fav now now' entry Hin Hu.
    rewrite (add_revisits _ _ _ _ _ _ entry Hdup Hin Hu).
    split; [unfold revisit; by rewrite Hu|].
    cbn [length].
    pose proof (take_first_unique u _ entry Hdup Hin Hu) as Hfirst.
    clear Hin Hdup. revert Hfirst. generalize (filter (fun e => url e ≠ u) (history self)).
    induction (history self) as [|e l IH]; intros rest; simpl; [done|].
    case_decide; [by intros [= _ <-]|].
    destruct (take_first u l) as [[found rest']|]; [|done].
    intros [= -> <-]. simpl. f_equal. by apply IH.
Qed.

Definition sample_history : HistoryManager :=
  add (add (__init__ 10000) "https://a.example" "A" "" "2024-05-01T10:00:00"
           "2024-05-01T10:00:00")
      "https://b.example" "" "" "2024-05-01T11:00:00" "2024-05-01T11:00:00".

Lemma history_unique_urls_witness :
  unique_urls (add sample_history "https://a.example" "" "" "2024-05-02T09:00:00"
                   "2024-05-02T09:00:00") /\
  (fun e => (url e, title e, visit_count e))
    <$> history (add sample_history "https://a.example" "" "" "2024-05-02T09:00:00"
                     "2024-05-02T09:00:00")
  = [("https://a.example", "A", 2); ("https://b.example", "https://b.example", 1)].
Proof.
  assert (unique_urls sample_history) as Hdup.
  { unfold unique_urls. simpl. apply (bool_decide_unpack _). exact I. }
  destruct (history_unique_urls sample_history Hdup) as [Hadd _].
  split; [apply Hadd | reflexivity].
Defined.

(** *** Bounds, visit counts and statistics *)

(** [get_most_visited(limit)]; the default limit is 20. *)
Definition get_most_visited (self : HistoryManager) (limit : Z) : list HistoryEntry :=
  PyStr.slice_to limit (PyList.sorted visit_count true (history self)).

(** The domain that [get_domain_stats] reads off a url: the third piece
    between slashes when the url has a slash, the url itself otherwise. *)
Definition entry_domain (u : string) : result string :=
  if PyStr.str_in "/" u then PyStr.index (PyStr.split "/" u) 2 else Ok u.

(** The loop of [get_domain_stats] over a [defaultdict(int)]. *)
Fixpoint domain_stats_loop (stats : gmap string Z) (l : list HistoryEntry)
    : result (gmap string Z) :=
  match l with
  | [] => Ok stats
  | entry :: l' =>
      d ← entry_domain (url entry);
      domain_stats_loop (<[d := default 0 (stats !! d) + visit_count entry]> stats) l'
  end.

Definition get_domain_stats (self : HistoryManager) : result (gmap string Z) :=
  domain_stats_loop ∅ (history self).

(** The visit count that the history holds for a url: that of the first
    entry with the url, 0 when there is none. *)
Definition visits (self : HistoryManager) (u : string) : Z :=
  match take_first u (history self) with
  | Some (entry, _) => visit_count entry
  | None => 0
  end.

Definition total_visits (l : list HistoryEntry) : Z :=
  foldr (fun h acc => visit_count h + acc) 0 l.

Lemma take_first_length u (l : list HistoryEntry) entry rest :
  take_first u l = Some (entry, rest) -> length l = S (length rest).
Proof.
  revert rest. induction l as [|e l IH]; intros rest; simpl; [done|].
  case_decide; [by intros [= _ <-]|].
  destruct (take_first u l) as [[found rest']|]; [|done].
  intros [= -> <-]. simpl. f_equal. by apply IH.
Qed.

Lemma take_first_absent u (l : list HistoryEntry) :
  u ∉ url <$> l -> take_first u l = None.
Proof.
  induction l as [|e l IH]; [done|]. rewrite fmap_cons, not_elem_of_cons.
  intros [Hne Hl]. simpl. rewrite decide_False by done. by rewrite IH.
Qed.

Lemma take_first_other u v (l : list HistoryEntry) entry rest :
  take_first u l = Some (entry, rest) -> v ≠ u ->
  fst <$> take_first v rest = fst <$> take_first v l.
Proof.
  revert rest. induction l as [|e l IH]; intros rest; simpl; [done|].
  destruct (decide (url e = u)) as [He|He].
  - intros [= _ <-] Hv. rewrite decide_False by congruence.
    by destruct (take_first v l) as [[? ?]|].
  - destruct (take_first u l) as [[found rest']|]; [|done].
    intros [= -> <-] Hv. simpl. case_decide; [done|].
    specialize (IH rest' eq_refl Hv).
    destruct (take_first v rest') as [[? ?]|], (take_first v l) as [[? ?]|];
      simpl in *; congruence.
Qed.

(** X10: the history stays within [max_entries].  For a non-negative
    bound that the history respects, it still does after [add], [remove] and
    [clear].  With a bound of at least one the url that was added is first.
    A new url added to a full history pushes out exactly the last entry;
    with a bound of zero the visit is not kept at all. *)
Theorem history_stays_bounded (self : HistoryManager) :
  0 <= max_entries self ->
  Z.of_nat (length (history self)) <= max_entries self ->
  (forall u t fav now now',
     Z.of_nat (length (history (add self u t fav now now'))) <= max_entries self /\
     max_entries (add self u t fav now now') = max_entries self) /\
  (forall u, Z.of_nat (length (history (remove self u).1)) <= max_entries self) /\
  (forall u t fav now now',
     1 <= max_entries self ->
     url <$> head (history (add self u t fav now now')) = Some u) /\
  (forall u t fav now now',
     u ∉ url <$> history self ->
     Z.of_nat (length (history self)) = max_entries self ->
     history (add self u t fav now now')
     = take (length (history self))
         (HistoryEntry_init u (PyStr.str_or (Some t) u) 1 None fav now now'
          :: history self)).
Proof.
  intros Hmax Hlen. split; [|split; [|split]].
  - intros u t fav now now'. unfold add.
    destruct (take_first u (history self)) as [[entry rest]|] eqn:Hfirst.
    + apply take_first_length in Hfirst. simpl. split; [lia | done].
    + cbn [history max_entries]. split; [|done].
      case_decide as Hfull; [|simpl in *; lia].
      unfold PyStr.slice_to. rewrite decide_True by done.
      rewrite length_take. lia.
  - intros u. simpl. pose proof (length_filter (fun e => url e ≠ u) (history self)). lia.
  - intros u t fav now now' Hone. unfold add.
    destruct (take_first u (history self)) as [[entry rest]|] eqn:Hfirst.
    + apply take_first_found in Hfirst as [_ Hu]. simpl. by rewrite Hu.
    + cbn [history]. case_decide; [|done].
      unfold PyStr.slice_to. rewrite decide_True by done.
      destruct (Z.to_nat (max_entries self)) eqn:Hn; [lia | done].
  - intros u t fav now now' Hnew Hfull. unfold add.
    rewrite take_first_absent by done. cbn [history].
    rewrite decide_True by (simpl; lia).
    unfold PyStr.slice_to. rewrite decide_True by done.
    by rewrite <- Hfull, Nat2Z.id.
Qed.

Lemma history_stays_bounded_witness :
  url <$> history (add {| history := history sample_history; max_entries := 2 |}
                       "https://c.example" "C" "" "2024-05-03T09:00:00"
                       "2024-05-03T09:00:00")
  = ["https://c.example"; "https://b.example"].
Proof.
  assert (0 <= 2) as Hmax by lia.
  assert (Z.of_nat (length (history sample_history)) <= 2) as Hlen by (simpl; lia).
  destruct (history_stays_bounded {| history := history sample_history; max_entries := 2 |}
              Hmax Hlen) as (_ & _ & _ & Hfull).
  rewrite Hfull; [reflexivity | | reflexivity].
  apply (bool_decide_unpack _). vm_compute. exact I.
Defined.

(** X11: [add] counts visits.  With a bound of at least one, the count
    held for the url goes up by one (from 0 for a new url); the counts of
    the other urls stay as they are as long as no entry is pushed out. *)
Theorem add_counts_visits (self : HistoryManager) (u t fav now now' : string) :
  (1 <= max_entries self ->
   visits (add self u t fav now now') u = visits self u + 1) /\
  (forall v, v ≠ u ->
     u ∈ url <$> history self \/ Z.of_nat (length (history self)) < max_entries self ->
     visits (add self u t fav now now') v = visits self v).
Proof.
  unfold visits, add. split.
  - intros Hone. destruct (take_first u (history self)) as [[entry rest]|] eqn:Hfirst.
    + apply take_first_found in Hfirst as [_ Hu]. simpl.
      by rewrite decide_True.
    + cbn [history]. case_decide.
      * unfold PyStr.slice_to. rewrite decide_True by lia.
        destruct (Z.to_nat (max_entries self)) eqn:Hn; [lia|]. simpl.
        by rewrite decide_True.
      * simpl. by rewrite decide_True.
  - intros v Hv Hroom.
    destruct (take_first u (history self)) as [[entry rest]|] eqn:Hfirst.
    + pose proof (take_first_other u v _ _ _ Hfirst Hv) as Hother.
      apply take_first_found in Hfirst as [_ Hu]. simpl.
      rewrite decide_False by congruence.
      destruct (take_first v rest) as [[? ?]|], (take_first v (history self)) as [[? ?]|];
        simpl in *; congruence.
    + destruct Hroom as [Hin | Hroom]; [by destruct (take_first_None _ _ Hfirst)|].
      cbn [history]. rewrite decide_False by (simpl; lia). simpl.
      rewrite decide_False by done.
      by destruct (take_first v (history self)) as [[? ?]|].
Qed.

Lemma str_in_slash u : PyStr.str_in "/" u = true <-> (1 <= PyStr.count "/" u)%nat.
Proof.
  induction u as [|a u IH]; [simpl; split; [done | lia]|].
  cbn [PyStr.str_in PyStr.startswith PyStr.count].
  rewrite (Ascii.eqb_sym "/" a). destruct (Ascii.eqb a "/"); simpl.
  - split; [lia | done].
  - exact IH.
Qed.

Lemma entry_domain_raises u :
  entry_domain u = Raise IndexError <-> PyStr.count "/" u = 1%nat.
Proof.
  unfold entry_domain, PyStr.index.
  pose proof (PyStr.split_length "/" u) as Hlen.
  destruct (PyStr.str_in "/" u) eqn:Hin.
  - apply str_in_slash in Hin.
    destruct (PyStr.split "/" u) as [|p0 [|p1 [|p2 rest]]]; simpl in *;
      split; (done || lia).
  - split; [done|]. intros Hone.
    assert (PyStr.str_in "/" u = true) as Htrue by (apply str_in_slash; lia).
    congruence.
Qed.

Lemma entry_domain_cases u :
  entry_domain u = Raise IndexError \/ exists d, entry_domain u = Ok d.
Proof.
  unfold entry_domain, PyStr.index. destruct (PyStr.str_in "/" u); [|eauto].
  destruct (PyStr.split "/" u !! 2%nat); eauto.
Qed.

Lemma domain_stats_loop_raises stats (l : list HistoryEntry) :
  domain_stats_loop stats l = Raise IndexError <->
  exists h, h ∈ l /\ PyStr.count "/" (url h) = 1%nat.
Proof.
  revert stats. induction l as [|e l IH]; intros stats; simpl.
  - split; [done | by intros [h [?%elem_of_nil _]]].
  - destruct (entry_domain_cases (url e)) as [Hraise | [d Hd]].
    + rewrite Hraise. simpl. split; [|done]. intros _. exists e.
      split; [by left | by apply entry_domain_raises].
    + rewrite Hd. simpl. rewrite IH. split.
      * intros [h [Hh Hone]]. exists h. split; [by right | done].
      * intros [h [[->|Hh]%elem_of_cons Hone]]; [|by exists h].
        apply entry_domain_raises in Hone. congruence.
Qed.

Lemma domain_stats_loop_sum stats (l : list HistoryEntry) result :
  domain_stats_loop stats l = Ok result ->
  sum_counts result = sum_counts stats + total_visits l.
Proof.
  revert stats. induction l as [|e l IH]; intros stats; simpl.
  - intros [= <-]. lia.
  - destruct (entry_domain (url e)) as [d|]; simpl; [|done].
    intros Hloop%IH. rewrite Hloop, sum_counts_add. lia.
Qed.

Lemma domain_stats_loop_error stats (l : list HistoryEntry) e :
  domain_stats_loop stats l = Raise e -> e = IndexError.
Proof.
  revert stats. induction l as [|h l IH]; intros stats; simpl; [done|].
  destruct (entry_domain_cases (url h)) as [-> | [d ->]]; simpl.
  - by intros [= <-].
  - apply IH.
Qed.

(** X12: [get_domain_stats] fails on a url with a single slash.  It
    raises, and then [IndexError], exactly when some entry's url holds
    exactly one slash (as in "example.com/page"); otherwise it returns
    counters whose sum is the sum of the visit counts of the history. *)
Theorem get_domain_stats_single_slash (self : HistoryManager) :
  (get_domain_stats self = Raise IndexError <->
   exists h, h ∈ history self /\ PyStr.count "/" (url h) = 1%nat) /\
  (forall e, get_domain_stats self = Raise e -> e = IndexError) /\
  (forall stats, get_domain_stats self = Ok stats ->
     sum_counts stats = total_visits (history self)) /\
  ((forall h, h ∈ history self -> PyStr.count "/" (url h) ≠ 1%nat) ->
   exists stats, get_domain_stats self = Ok stats).
Proof.
  unfold get_domain_stats. split; [apply domain_stats_loop_raises|].
  split; [apply domain_stats_loop_error|]. split.
  - intros stats Hloop%domain_stats_loop_sum. rewrite Hloop. done.
  - intros Hnone.
    destruct (domain_stats_loop ∅ (history self)) as [stats|e] eqn:Hloop; [eauto|].
    pose proof (domain_stats_loop_error _ _ _ Hloop) as ->.
    apply domain_stats_loop_raises in Hloop as [h [Hh Hone]].
    by destruct (Hnone h Hh).
Qed.

Example get_domain_stats_runs :
  get_domain_stats (add (__init__ 10000) "example.com/page" "" "" "2024-05-01T10:00:00"
                        "2024-05-01T10:00:00") = Raise IndexError /\
  get_domain_stats sample_history
  = Ok {[ "a.example" := 1; "b.example" := 1 ]}.
Proof. split; [reflexivity|]. vm_compute. reflexivity. Qed.

(** X13: [get_most_visited(limit)] returns the most visited entries.  For
    a non-negative limit it returns as many entries as the limit allows, all
    of them entries of the history, in non-increasing order of visit count,
    and every entry of the history that it leaves out was visited no more
    often than every entry that it returns. *)
Theorem get_most_visited_top (self : HistoryManager) (limit : Z) :
  0 <= limit ->
  length (get_most_visited self limit)
  = Nat.min (Z.to_nat limit) (length (history self)) /\
  (forall h, h ∈ get_most_visited self limit -> h ∈ history self) /\
  (forall i j a b,
     (i < j)%nat ->
     get_most_visited self limit !! i = Some a ->
     get_most_visited self limit !! j = Some b ->
     visit_count b <= visit_count a) /\
  (forall a b,
     a ∈ get_most_visited self limit -> b ∈ history self ->
     b ∉ get_most_visited self limit -> visit_count b <= visit_count a).
Proof.
  intros Hlimit. unfold get_most_visited, PyStr.slice_to.
  rewrite decide_True by done.
  set (s := PyList.sorted visit_count true (history self)).
  pose proof (PyList.sorted_perm visit_count true (history self)) as Hperm.
  pose proof (PyList.sorted_ordered visit_count true (history self)) as Hord.
  fold s in Hperm, Hord.
  split; [|split; [|split]].
  - rewrite length_take. by rewrite Hperm.
  - intros h Hh. rewrite <- Hperm. eapply elem_of_sublist; [exact Hh | apply sublist_take].
  - intros i j a b Hij Ha Hb.
    apply lookup_take_Some in Ha as [Ha _]. apply lookup_take_Some in Hb as [Hb _].
    pose proof (PyList.ordered_lookup visit_count true s i j a b Hord Hij Ha Hb) as Hab.
    unfold PyList.before in Hab. lia.
  - intros a b Ha Hb Hout.
    rewrite <- Hperm in Hb.
    apply list_elem_of_lookup in Ha as [i Ha]. apply lookup_take_Some in Ha as [Ha Hi].
    apply list_elem_of_lookup in Hb as [j Hb].
    assert (Z.to_nat limit <= j)%nat as Hj.
    { destruct (decide (j < Z.to_nat limit)%nat) as [Hlt|]; [|lia].
      exfalso. apply Hout. apply list_elem_of_lookup. exists j.
      by apply lookup_take_Some. }
    assert (i < j)%nat as Hij by lia.
    pose proof (PyList.ordered_lookup visit_count true s i j a b Hord Hij Ha Hb) as Hab.
    unfold PyList.before in Hab. lia.
Qed.

Lemma get_most_visited_top_witness :
  url <$> get_most_visited
            (add sample_history "https://a.example" "" "" "2024-05-04T09:00:00"
                 "2024-05-04T09:00:00") 1
  = ["https://a.example"] /\
  length (get_most_visited sample_history 20) = 2%nat.
Proof.
  split; [reflexivity|].
  assert (0 <= 20) as Hlimit by lia.
  destruct (get_most_visited_top sample_history 20 Hlimit) as [Hlen _].
  rewrite Hlen. reflexivity.
Defined.

(** *** Serialization *)

(** The dict that [from_dict] reads, with values of the types that
    [to_dict] writes; each key is absent ([None]) or present. *)
Record entry_dict := {
  d_url : option string;
  d_title : option string;
  d_visit_count : option Z;
  d_last_visit : option string;
  d_first_visit : option string;
  d_favicon : option string
}.

Definition to_dict (h : HistoryEntry) : entry_dict :=
  {| d_url := Some (url h); d_title := Some (title h);
     d_visit_count := Some (visit_count h); d_last_visit := Some (last_visit h);
     d_first_visit := Some (first_visit h); d_favicon := Some (favicon h) |}.

(** [from_dict(data)]: [data['url']] and [data['title']] must be there
    ([None] stands for the [KeyError]); a stored [first_visit] replaces the
    one that the constructor set. *)
Definition from_dict (data : entry_dict) (now now' : string) : option HistoryEntry :=
  match d_url data, d_title data with
  | Some u, Some t =>
      let entry := HistoryEntry_init u t (default 1 (d_visit_count data))
                     (d_last_visit data) (default "" (d_favicon data)) now now' in
      Some {| url := url entry; title := title entry;
              visit_count := visit_count entry; last_visit := last_visit entry;
              favicon := favicon entry;
              first_visit := default (first_visit entry) (d_first_visit data) |}
  | _, _ => None
  end.

(** The file history.json: absent, not loadable, or a document whose
    [history] key may be missing. *)
Inductive file :=
| Missing
| Unreadable
| Document (entries : option (list entry_dict)).

(** The list comprehension of [_load]; [clock i] holds the two clock
    readings of the [i]-th constructor call. *)
Fixpoint load_entries (clock : nat -> string * string) (i : nat)
    (ds : list entry_dict) : option (list HistoryEntry) :=
  match ds with
  | [] => Some []
  | d :: ds' =>
      match from_dict d (clock i).1 (clock i).2 with
      | None => None
      | Some h =>
          match load_entries clock (S i) ds' with
          | None => None
          | Some hs => Some (h :: hs)
          end
      end
  end.

(** [_load]: any exception empties the history. *)
Definition _load (clock : nat -> string * string) (f : file) (self : HistoryManager)
    : HistoryManager :=
  match f with
  | Missing => self
  | Unreadable => {| history := []; max_entries := max_entries self |}
  | Document entries =>
      {| history := default [] (load_entries clock 0 (default [] entries));
         max_entries := max_entries self |}
  end.

Definition _save (self : HistoryManager) : file :=
  Document (Some (to_dict <$> history self)).

(** Every entry carries a non-empty time of its last visit. *)
Definition visited_at (self : HistoryManager) : Prop :=
  Forall (fun h => last_visit h ≠ "") (history self).

Lemma entry_round_trip h now now' :
  last_visit h ≠ "" -> from_dict (to_dict h) now now' = Some h.
Proof.
  intros Hlast. destruct h as [u t n lv fav fv]. simpl in Hlast.
  unfold from_dict, to_dict, HistoryEntry_init; simpl. by rewrite decide_False.
Qed.

Lemma load_entries_to_dict clock i (hs : list HistoryEntry) :
  Forall (fun h => last_visit h ≠ "") hs ->
  load_entries clock i (to_dict <$> hs) = Some hs.
Proof.
  intros Hall. revert i. induction Hall as [|h hs Hh _ IH]; intros i; [done|].
  cbn [fmap list_fmap load_entries]. by rewrite entry_round_trip, IH.
Qed.

Lemma take_first_visited_at u (l : list HistoryEntry) entry rest :
  take_first u l = Some (entry, rest) ->
  Forall (fun h => last_visit h ≠ "") l ->
  Forall (fun h => last_visit h ≠ "") rest.
Proof.
  revert rest. induction l as [|e l IH]; intros rest; simpl; [done|].
  intros Hfirst Hall. apply Forall_cons in Hall as [He Hl].
  case_decide; [by injection Hfirst as _ <-|].
  destruct (take_first u l) as [[found rest']|]; [|done].
  injection Hfirst as -> <-. constructor; [done | by apply IH].
Qed.

(** X29: the history survives saving and loading.  An entry whose last
    visit is not the empty string is given back field for field by
    [from_dict] of its [to_dict]; an empty last visit is replaced by the
    clock.  [add] with a clock that is not empty, [remove] and [clear] keep
    every last visit non-empty, and for such a history [_load] of the file
    that [_save] writes restores it.  A stored dict without url or title
    empties the whole history. *)
Theorem history_round_trip (self : HistoryManager) :
  (forall h now now', last_visit h ≠ "" -> from_dict (to_dict h) now now' = Some h) /\
  (forall h now now',
     last_visit h = "" -> now ≠ "" -> from_dict (to_dict h) now now' ≠ Some h) /\
  (visited_at self ->
   (forall clock loading,
      history (_load clock (_save self) loading) = history self) /\
   (forall u t fav now now', now ≠ "" -> visited_at (add self u t fav now now')) /\
   (forall u, visited_at (remove self u).1) /\
   visited_at (clear self)) /\
  (forall clock entries d,
     d ∈ entries -> d_url d = None \/ d_title d = None ->
     history (_load clock (Document (Some entries)) self) = []).
Proof.
  split; [intros; by apply entry_round_trip|]. split.
  { intros [u t n lv fav fv] now now' Hlast Hnow. simpl in Hlast. subst lv.
    unfold from_dict, to_dict, HistoryEntry_init; simpl. congruence. }
  split.
  - intros Hall. split.
    { intros clock loading. simpl. by rewrite load_entries_to_dict. }
    split.
    { intros u t fav now now' Hnow. unfold visited_at, add.
      destruct (take_first u (history self)) as [[entry rest]|] eqn:Hfirst; simpl.
      - constructor; [done|]. by eapply take_first_visited_at.
      - assert (Forall (fun h => last_visit h ≠ "")
                  (HistoryEntry_init u (PyStr.str_or (Some t) u) 1 None fav now now'
                   :: history self)) as Hnew by (by constructor).
        case_decide; [|done].
        unfold PyStr.slice_to. case_decide; by apply Forall_take. }
    split; [|constructor].
    intros u. unfold visited_at. simpl. by apply Forall_filter_keeps.
  - intros clock entries d Hd Hbad. simpl.
    assert (forall i, load_entries clock i entries = None) as ->; [|done].
    induction Hd as [d ds | d d' ds _ IH]; intros i; simpl.
    + unfold from_dict. destruct Hbad as [-> | ->]; [done|].
      by destruct (d_url d).
    + destruct (from_dict d' _ _); [|done]. by rewrite IH.
Qed.

Example history_round_trip_runs :
  history (_load (fun _ => ("2031-01-01T00:00:00", "2031-01-01T00:00:00"))
             (_save sample_history) (__init__ 10000))
  = history sample_history.
Proof. reflexivity. Qed.

End history.

(** ** productivity/todo_manager.py *)

Module todo_manager.

(** An element of [Todo.subtasks] (a dict with these four keys). *)
Record Subtask := {
  subtask_id : string;
  subtask_text : string;
  subtask_completed : bool;
  subtask_created_at : string
}.

Record Todo := {
  id : string;
  text : string;
  priority : string;
  status : string;
  due_date : option string;
  category : string;
  tags : list string;
  created_at : string;
  updated_at : string;
  completed_at : option string;
  subtasks : list Subtask;
  notes : string;
  reminder : option string;
  repeat : option string
}.

(** [TodoStatus.PENDING.value] and [TodoStatus.COMPLETED.value] *)
Definition PENDING : string := "pending".
Definition COMPLETED : string := "completed".

(** [Todo(text, priority, due_date, category, tags)]; [new_id] is what
    [_generate_id] draws, [now] and [now'] are the two readings of the clock. *)
Definition Todo_init (txt prio : string) (due : option string) (cat : string)
    (tgs : option (list string)) (new_id now now' : string) : Todo :=
  {| id := new_id; text := txt; priority := prio; status := PENDING;
     due_date := due; category := cat; tags := default [] tgs;
     created_at := now; updated_at := now'; completed_at := None;
     subtasks := []; notes := ""; reminder := None; repeat := None |}.



Definition set_category (cat : string) (t : Todo) : Todo :=
  {| id := id t; text := text t; priority := priority t; status := status t;
     due_date := due_date t; category := cat; tags := tags t;
     created_at := created_at t; updated_at := updated_at t;
     completed_at := completed_at t; subtasks := subtasks t; notes := notes t;
     reminder := reminder t; repeat := repeat t |}.

(** Every mutating operation ends by writing todos.json; the file is read by
    the constructor only and is left out of the state. *)
Record TodoManager := {
  todos : list Todo;
  categories : list string
}.

(** A manager built where no todo file exists. *)
Definition __init__ : TodoManager :=
  {| todos := [];
     categories := ["default"; "work"; "personal"; "shopping"; "health"] |}.

Definition add (self : TodoManager) (txt prio : string) (due : option string)
    (cat : string) (tgs : option (list string)) (new_id now now' : string)
    : TodoManager * Todo :=
  let todo := Todo_init txt prio due cat tgs new_id now now' in
  ({| todos := (todos self ++ [todo])%list; categories := categories self |}, todo).

Definition remove (self : TodoManager) (todo_id : string) : TodoManager * bool :=
  let kept := filter (fun t => id t ≠ todo_id) (todos self) in
  ({| todos := kept; categories := categories self |},
   bool_decide (length kept < length (todos self))%nat).

(** The loop of [get]: the first todo with the id. *)
Fixpoint find_todo (todo_id : string) (l : list Todo) : option Todo :=
  match l with
  | [] => None
  | todo :: l' => if decide (id todo = todo_id) then Some todo else find_todo todo_id l'
  end.

Definition get (self : TodoManager) (todo_id : string) : option Todo :=
  find_todo todo_id (todos self).




Definition get_all (self : TodoManager) : list Todo := todos self.

Definition get_by_category (self : TodoManager) (cat : string) : list Todo :=
  filter (fun t => category t = cat) (todos self).

Definition add_category (self : TodoManager) (cat : string) : TodoManager :=
  if decide (cat ∈ categories self) then self
  else {| todos := todos self; categories := (categories self ++ [cat])%list |}.

(** [list.remove(x)]: the first occurrence goes. *)
Fixpoint remove_first (x : string) (l : list string) : list string :=
  match l with
  | [] => []
  | y :: l' => if decide (y = x) then l' else y :: remove_first x l'
  end.

Definition remove_category (self : TodoManager) (cat : string) : TodoManager * bool :=
  if decide (cat ∈ categories self /\ cat ≠ "default")
  then ({| todos := (fun t => if decide (category t = cat)
                               then set_category "default" t else t)
                    <$> todos self;
           categories := remove_first cat (categories self) |}, true)
  else (self, false).

Definition clear_completed (self : TodoManager) : TodoManager :=
  {| todos := filter (fun t => status t ≠ COMPLETED) (todos self);
     categories := categories self |}.

Definition clear_all (self : TodoManager) : TodoManager :=
  {| todos := []; categories := categories self |}.

Section Search.

Variable lower : string -> string.

Definition search (self : TodoManager) (query : string) : list Todo :=
  let query := lower query in
  filter (fun t => PyStr.str_in query (lower (text t))
                   || PyStr.str_in query (lower (notes t)))
         (todos self).

End Search.

(** *** add, get and remove *)

Lemma find_todo_app_fresh todo_id (l : list Todo) todo :
  Forall (fun t => id t ≠ todo_id) l -> id todo = todo_id ->
  find_todo todo_id (l ++ [todo]) = Some todo.
Proof.
  intros Hl Hid. induction Hl as [|t l Ht _ IH]; simpl.
  - by rewrite decide_True.
  - by rewrite decide_False.
Qed.

Lemma find_todo_filter_None todo_id (l : list Todo) :
  find_todo todo_id (filter (fun t => id t ≠ todo_id) l) = None.
Proof.
  induction l as [|t l IH]; [done|].
  destruct (decide (id t = todo_id)) as [Heq|Hne].
  - rewrite filter_cons_False by (by intros []). done.
  - rewrite filter_cons_True by done. simpl. by rewrite decide_False.
Qed.

Lemma length_filter_lt_iff {A} (P : A -> Prop) `{!forall x, Decision (P x)} (l : list A) :
  (length (filter P l) < length l)%nat <-> exists x, x ∈ l /\ ~ P x.
Proof.
  split.
  - induction l as [|x l IH]; simpl; [lia|].
    destruct (decide (P x)) as [Hx|Hx].
    + rewrite filter_cons_True by done. simpl. intros Hlt.
      destruct IH as [y [Hy HPy]]; [lia|]. exists y. split; [by right | done].
    + intros _. exists x. split; [by left | done].
  - intros [x [Hx HPx]]. by eapply length_filter_lt.
Qed.

(** C8: when the id drawn for the new todo is carried by no todo of the
    list, [get] with the id of the todo that [add] returns gives back that
    todo, which holds the arguments of [add] and the initial values of the
    other fields. *)
Theorem add_then_get (self : TodoManager) (txt prio : string) (due : option string)
    (cat : string) (tgs : option (list string)) (new_id now now' : string) :
  Forall (fun t => id t ≠ new_id) (todos self) ->
  let self' := (add self txt prio due cat tgs new_id now now').1 in
  let todo := (add self txt prio due cat tgs new_id now now').2 in
  get self' (id todo) = Some todo /\
  todo = {| id := new_id; text := txt; priority := prio; status := "pending";
            due_date := due; category := cat; tags := default [] tgs;
            created_at := now; updated_at := now'; completed_at := None;
            subtasks := []; notes := ""; reminder := None; repeat := None |}.
Proof.
  intros Hfresh. simpl. split; [|done].
  unfold get. simpl. by apply find_todo_app_fresh.
Qed.

Lemma add_then_get_witness :
  let self := (add __init__ "buy milk" "medium" None "shopping" None "1a2b3c4d"
                   "2024-05-01T10:00:00" "2024-05-01T10:00:00").1 in
  get (add self "call home" "high" (Some "2024-05-03") "personal" (Some ["family"])
           "9f8e7d6c" "2024-05-02T08:00:00" "2024-05-02T08:00:00").1 "9f8e7d6c"
  = Some (Todo_init "call home" "high" (Some "2024-05-03") "personal" (Some ["family"])
            "9f8e7d6c" "2024-05-02T08:00:00" "2024-05-02T08:00:00").
Proof.
  intros self.
  apply (add_then_get self "call home" "high" (Some "2024-05-03") "personal"
           (Some ["family"]) "9f8e7d6c" "2024-05-02T08:00:00" "2024-05-02T08:00:00").
  subst self. simpl. repeat constructor. discriminate.
Defined.

(** C9: after [remove] with an id, [get] with that id finds nothing, and
    [remove] returns [True] exactly when a todo with that id was in the
    list before the call. *)
Theorem remove_then_get (self : TodoManager) (todo_id : string) :
  get (remove self todo_id).1 todo_id = None /\
  ((remove self todo_id).2 = true <-> exists t, t ∈ todos self /\ id t = todo_id) /\
  ((remove self todo_id).2 = false <-> forall t, t ∈ todos self -> id t ≠ todo_id).
Proof.
  unfold get, remove; simpl. split; [apply find_todo_filter_None|].
  assert (bool_decide (length (filter (fun t => id t ≠ todo_id) (todos self))
                       < length (todos self))%nat = true
          <-> exists t, t ∈ todos self /\ id t = todo_id) as Htrue.
  { rewrite bool_decide_eq_true, length_filter_lt_iff. split.
    - intros [t [Ht Hid]]. exists t. split; [done|].
      by destruct (decide (id t = todo_id)).
    - intros [t [Ht Hid]]. exists t. split; [done | by intros []]. }
  split; [exact Htrue|].
  rewrite <- not_true_iff_false, Htrue. split.
  - intros Hnone t Ht Hid. apply Hnone. by exists t.
  - intros Hall [t [Ht Hid]]. by apply (Hall t).
Qed.

(** *** Serialization *)

(** The dict that [from_dict] reads, with values of the types that
    [to_dict] writes: each key is absent ([None]) or present; a present
    [due_date], [completed_at], [reminder] or [repeat] may hold [None]. *)
Record todo_dict := {
  d_id : option string;
  d_text : option string;
  d_priority : option string;
  d_status : option string;
  d_due_date : option (option string);
  d_category : option string;
  d_tags : option (list string);
  d_created_at : option string;
  d_updated_at : option string;
  d_completed_at : option (option string);
  d_subtasks : option (list Subtask);
  d_notes : option string;
  d_reminder : option (option string);
  d_repeat : option (option string)
}.

Definition to_dict (t : Todo) : todo_dict :=
  {| d_id := Some (id t); d_text := Some (text t); d_priority := Some (priority t);
     d_status := Some (status t); d_due_date := Some (due_date t);
     d_category := Some (category t); d_tags := Some (tags t);
     d_created_at := Some (created_at t); d_updated_at := Some (updated_at t);
     d_completed_at := Some (completed_at t); d_subtasks := Some (subtasks t);
     d_notes := Some (notes t); d_reminder := Some (reminder t);
     d_repeat := Some (repeat t) |}.

(** [from_dict(data)]: [data['text']] must be there ([None] stands for the
    [KeyError]); the constructor draws an id and reads the clock twice
    before the stored values replace what it set. *)
Definition from_dict (data : todo_dict) (new_id now now' : string) : option Todo :=
  match d_text data with
  | None => None
  | Some txt =>
      let todo := Todo_init txt (default "medium" (d_priority data))
                    (default None (d_due_date data))
                    (default "default" (d_category data))
                    (Some (default [] (d_tags data))) new_id now now' in
      Some {| id := default (id todo) (d_id data);
              text := text todo;
              priority := priority todo;
              status := default PENDING (d_status data);
              due_date := due_date todo;
              category := category todo;
              tags := tags todo;
              created_at := default (created_at todo) (d_created_at data);
              updated_at := default (updated_at todo) (d_updated_at data);
              completed_at := default None (d_completed_at data);
              subtasks := default [] (d_subtasks data);
              notes := default "" (d_notes data);
              reminder := default None (d_reminder data);
              repeat := default None (d_repeat data) |}
  end.

(** The parsed content of todos.json, and the file. *)
Record document := {
  doc_todos : option (list todo_dict);
  doc_categories : option (list string)
}.

Inductive file :=
| Missing
| Unreadable
| Document (data : document).

(** The list comprehension of [_load]; [fresh i] is the id and the two
    clock readings of the [i]-th constructor call. *)
Fixpoint load_todos (fresh : nat -> string * string * string) (i : nat)
    (ds : list todo_dict) : option (list Todo) :=
  match ds with
  | [] => Some []
  | d :: ds' =>
      match from_dict d (fresh i).1.1 (fresh i).1.2 (fresh i).2 with
      | None => None
      | Some t =>
          match load_todos fresh (S i) ds' with
          | None => None
          | Some ts => Some (t :: ts)
          end
      end
  end.

(** [_load]: any exception is passed over and leaves the manager as it is. *)
Definition _load (fresh : nat -> string * string * string) (f : file)
    (self : TodoManager) : TodoManager :=
  match f with
  | Missing => self
  | Unreadable => self
  | Document data =>
      match load_todos fresh 0 (default [] (doc_todos data)) with
      | Some ts => {| todos := ts;
                      categories := default (categories self) (doc_categories data) |}
      | None => self
      end
  end.

Definition _save (self : TodoManager) : file :=
  Document {| doc_todos := Some (to_dict <$> todos self);
              doc_categories := Some (categories self) |}.

Lemma todo_from_dict_to_dict t new_id now now' : from_dict (to_dict t) new_id now now' = Some t.
Proof. by destruct t. Qed.

Lemma load_todos_to_dict fresh i ts : load_todos fresh i (to_dict <$> ts) = Some ts.
Proof.
  revert i. induction ts as [|t ts IH]; intros i; [done|].
  cbn [fmap list_fmap load_todos]. by rewrite todo_from_dict_to_dict, IH.
Qed.

Lemma load_todos_missing_text fresh i ds d :
  d ∈ ds -> d_text d = None -> load_todos fresh i ds = None.
Proof.
  intros Hd Htext. revert i. induction Hd as [d ds | d d' ds _ IH]; intros i; simpl.
  - unfold from_dict. by rewrite Htext.
  - destruct (from_dict d' _ _ _); [|done]. by rewrite IH.
Qed.

(** X14: todos survive saving and loading.  [from_dict] of a todo's
    [to_dict] is that todo, all fourteen fields, whatever id and clock the
    constructor draws on the way; and [_load] of the file that [_save]
    writes gives the manager that was saved, todos and categories, whatever
    manager does the loading. *)
Theorem todo_round_trip (self : TodoManager) :
  (forall t new_id now now', from_dict (to_dict t) new_id now now' = Some t) /\
  (forall fresh loading, _load fresh (_save self) loading = self).
Proof.
  split; [apply todo_from_dict_to_dict|].
  intros fresh loading. unfold _load, _save; simpl.
  rewrite load_todos_to_dict. by destruct self.
Qed.

(** X15: what [from_dict] fills in and what it cannot.  A dict holding a
    text and nothing else becomes the todo that the constructor builds from
    that text alone: priority "medium", category "default", status
    "pending", no tags, a new id.  A dict without a text raises, and one
    such dict among the stored ones makes [_load] keep the todos and the
    categories that the manager had, as do a missing and an unreadable
    file. *)
Theorem todo_load_defaults (fresh : nat -> string * string * string)
    (self : TodoManager) :
  (forall txt new_id now now',
     from_dict {| d_id := None; d_text := Some txt; d_priority := None;
                  d_status := None; d_due_date := None; d_category := None;
                  d_tags := None; d_created_at := None; d_updated_at := None;
                  d_completed_at := None; d_subtasks := None; d_notes := None;
                  d_reminder := None; d_repeat := None |} new_id now now'
     = Some (Todo_init txt "medium" None "default" None new_id now now')) /\
  (forall data new_id now now',
     d_text data = None -> from_dict data new_id now now' = None) /\
  (forall data d,
     d ∈ default [] (doc_todos data) -> d_text d = None ->
     _load fresh (Document data) self = self) /\
  _load fresh Missing self = self /\
  _load fresh Unreadable self = self /\
  (forall data,
     Forall (fun d => d_text d ≠ None) (default [] (doc_todos data)) ->
     length (todos (_load fresh (Document data) self))
     = length (default [] (doc_todos data)) /\
     categories (_load fresh (Document data) self)
     = default (categories self) (doc_categories data)).
Proof.
  split; [done|]. split; [by intros data ? ? ? Htext; unfold from_dict; rewrite Htext|].
  split.
  { intros data d Hd Htext. unfold _load.
    by rewrite (load_todos_missing_text fresh 0 _ d Hd Htext). }
  split; [done|]. split; [done|].
  intros data Hall. unfold _load.
  assert (forall i, exists ts,
            load_todos fresh i (default [] (doc_todos data)) = Some ts /\
            length ts = length (default [] (doc_todos data))) as Hloads.
  { induction Hall as [|d ds Hd _ IH]; intros i; simpl; [by exists []|].
    unfold from_dict. destruct (d_text d) as [txt|]; [|done].
    destruct (IH (S i)) as (ts & -> & Hlen). eexists. split; [done|].
    simpl. by rewrite Hlen. }
  destruct (Hloads 0%nat) as (ts & -> & Hlen). done.
Qed.

(** *** Completing, tags, priorities and categories *)

Definition get_pending (self : TodoManager) : list Todo :=
  filter (fun t => status t ≠ COMPLETED) (todos self).












Lemma remove_first_NoDup x (l : list string) :
  NoDup l -> NoDup (remove_first x l) /\ x ∉ remove_first x l.
Proof.
  induction 1 as [|y l Hy Hl [IH1 IH2]]; simpl; [split; [constructor | by intros ?%elem_of_nil]|].
  case_decide as Hxy.
  - subst. done.
  - split.
    + constructor; [|done]. intros Hin. apply Hy.
      clear -Hin. induction l as [|z l IH]; simpl in *; [done|].
      case_decide; [by right|]. apply elem_of_cons in Hin as [->|Hin]; [by left|].
      right. by apply IH.
    + apply not_elem_of_cons. split; [congruence | done].
Qed.




Lemma remove_first_keeps x (l : list string) y :
  y ∈ remove_first x l -> y ∈ l.
Proof.
  induction l as [|z l IH]; simpl; [done|].
  case_decide; [by right|]. intros [->|Hy]%elem_of_cons; [by left | right; by apply IH].
Qed.

(** X19: removing a category moves its todos to "default".  For a listed
    category other than "default", [remove_category] answers [True], leaves
    no todo in the category, keeps every todo with its id and text, and
    lists no category that was not listed; it unlists the category when the
    list named it once, but when the list names it twice it stays listed.
    For "default" or a category that is not listed it answers [False] and
    changes nothing. *)
Theorem remove_category_moves (self : TodoManager) (cat : string) :
  (cat = "default" \/ cat ∉ categories self ->
   remove_category self cat = (self, false)) /\
  (cat ≠ "default" -> cat ∈ categories self ->
   let self' := (remove_category self cat).1 in
   (remove_category self cat).2 = true /\
   get_by_category self' cat = [] /\
   (fun t => (id t, text t, status t)) <$> todos self'
   = (fun t => (id t, text t, status t)) <$> todos self /\
   length (get_by_category self' "default")
   = (length (get_by_category self "default") + length (get_by_category self cat))%nat /\
   (forall c, c ∈ categories self' -> c ∈ categories self) /\
   (NoDup (categories self) -> cat ∉ categories self')) /\
  categories (remove_category
                {| todos := todos self; categories := ["default"; "work"; "work"] |}
                "work").1 = ["default"; "work"].
Proof.
  unfold remove_category. split; [|split].
  - intros Hnoop. rewrite decide_False; [done|]. tauto.
  - intros Hcat Hin. rewrite decide_True by done. simpl.
    split; [done|]. unfold get_by_category; simpl.
    assert (get_rest :
      filter (fun t => category t = cat)
        ((fun t => if decide (category t = cat) then set_category "default" t else t)
         <$> todos self) = [] /\
      (fun t => (id t, text t, status t))
        <$> ((fun t => if decide (category t = cat) then set_category "default" t else t)
             <$> todos self)
      = (fun t => (id t, text t, status t)) <$> todos self /\
      length (filter (fun t => category t = "default")
                ((fun t => if decide (category t = cat) then set_category "default" t
                           else t) <$> todos self))
      = (length (filter (fun t => category t = "default") (todos self))
         + length (filter (fun t => category t = cat) (todos self)))%nat).
    { induction (todos self) as [|t l (IH1 & IH2 & IH3)]; [done|].
      rewrite !fmap_cons. destruct (decide (category t = cat)) as [Ht|Ht].
      - rewrite filter_cons_False by (simpl; congruence).
        rewrite (filter_cons_True (fun t0 => category t0 = "default")) by done.
        rewrite (filter_cons_False _ t) by congruence.
        rewrite (filter_cons_True _ t) by done.
        simpl. rewrite IH2, IH3. repeat split; [done | lia].
      - rewrite filter_cons_False by done. rewrite IH2. split; [done|]. split; [done|].
        rewrite (filter_cons_False (fun t0 => category t0 = cat) t) by done.
        destruct (decide (category t = "default")).
        + rewrite !filter_cons_True by done. simpl. by rewrite IH3.
        + rewrite !filter_cons_False by done. done. }
    destruct get_rest as (H1 & H2 & H3).
    split; [done|]. split; [done|]. split; [done|]. split.
    + intros c. apply remove_first_keeps.
    + intros Hdup. by apply remove_first_NoDup.
  - reflexivity.
Qed.

End todo_manager.

(** ** Properties shared by the managers *)

(** *** Folders and categories *)

(** Every stored bookmark's folder is a key of the folders map. *)
Definition folders_exist (self : bookmarks.BookmarkManager) : Prop :=
  Forall (fun b => bookmarks.folder b ∈ dom (bookmarks.folders self))
         (bookmarks.bookmarks self).

(** Every stored todo's category is in the categories list. *)
Definition categories_exist (self : todo_manager.TodoManager) : Prop :=
  Forall (fun t => todo_manager.category t ∈ todo_manager.categories self)
         (todo_manager.todos self).

(** The invariants that the operations keep: the fallback ["default"] is
    itself a folder (a category). *)
Definition folder_invariant (self : bookmarks.BookmarkManager) : Prop :=
  "default" ∈ dom (bookmarks.folders self) /\ folders_exist self.

Definition category_invariant (self : todo_manager.TodoManager) : Prop :=
  "default" ∈ todo_manager.categories self /\ categories_exist self.

Lemma default_folders_dom :
  dom bookmarks.default_folders = ({[ "default"; "work"; "personal" ]} : gset string).
Proof.
  unfold bookmarks.default_folders. rewrite !dom_insert_L, dom_singleton_L. set_solver.
Qed.

Lemma remove_first_other x y (l : list string) :
  y ∈ l -> y ≠ x -> y ∈ todo_manager.remove_first x l.
Proof.
  induction l as [|z l IH]; simpl; [done|].
  intros [->|Hy]%elem_of_cons Hne.
  - rewrite decide_False by done. by left.
  - case_decide; [done|]. right. by apply IH.
Qed.

Lemma bookmarks_folder_invariant (self : bookmarks.BookmarkManager) :
  folder_invariant self ->
  (forall u t f fav now,
     f ∈ dom (bookmarks.folders self) ->
     folder_invariant (bookmarks.add self u t f fav now).1.1) /\
  (forall disk u, folder_invariant (bookmarks.remove self disk u).1.1) /\
  (forall disk name display_name,
     folder_invariant (bookmarks.add_folder self disk name display_name).1) /\
  (forall disk name, folder_invariant (bookmarks.remove_folder self disk name).1).
Proof.
  unfold folder_invariant, folders_exist. intros [Hdefault Hall].
  split; [|split; [|split]].
  - intros u t f fav now Hf. simpl. split; [done|]. by constructor.
  - intros disk u. unfold bookmarks.remove. case_decide; simpl;
      (split; [done | by apply Forall_filter_keeps]).
  - intros disk name display_name. unfold bookmarks.add_folder.
    case_decide; [done|]. simpl. rewrite dom_insert_L. split; [set_solver|].
    eapply Forall_impl; [exact Hall|]. set_solver.
  - intros disk name. unfold bookmarks.remove_folder.
    case_decide as Hname; [|done]. destruct Hname as [_ Hname]. simpl.
    rewrite dom_delete_L. split; [set_solver|].
    apply Forall_fmap. eapply Forall_impl; [exact Hall|].
    intros b Hb. simpl. case_decide; simpl; set_solver.
Qed.

Lemma todos_category_invariant (self : todo_manager.TodoManager) :
  category_invariant self ->
  (forall txt prio due cat tgs new_id now now',
     cat ∈ todo_manager.categories self ->
     category_invariant (todo_manager.add self txt prio due cat tgs new_id now now').1) /\
  (forall todo_id, category_invariant (todo_manager.remove self todo_id).1) /\
  (forall cat, category_invariant (todo_manager.add_category self cat)) /\
  (forall cat, category_invariant (todo_manager.remove_category self cat).1) /\
  category_invariant (todo_manager.clear_completed self) /\
  category_invariant (todo_manager.clear_all self).
Proof.
  unfold category_invariant, categories_exist. intros [Hdefault Hall].
  split; [|split; [|split; [|split; [|split]]]].
  - intros txt prio due cat tgs new_id now now' Hcat. simpl. split; [done|].
    apply Forall_app. split; [done|]. by repeat constructor.
  - intros todo_id. simpl. split; [done | by apply Forall_filter_keeps].
  - intros cat. unfold todo_manager.add_category. case_decide; [done|]. simpl.
    split; [set_solver|]. eapply Forall_impl; [exact Hall|]. set_solver.
  - intros cat. unfold todo_manager.remove_category.
    case_decide as Hcat; [|done]. destruct Hcat as [_ Hcat]. simpl.
    assert ("default" ∈ todo_manager.remove_first cat (todo_manager.categories self))
      as Hdefault' by (by apply remove_first_other).
    split; [done|]. apply Forall_fmap. eapply Forall_impl; [exact Hall|].
    intros t Ht. simpl. case_decide; simpl; [done|].
    by apply remove_first_other.
  - simpl. split; [done | by apply Forall_filter_keeps].
  - simpl. split; [done | constructor].
Qed.

(** C5, as the code has it: [add] stores the folder (the category) it is
    given without looking it up, so the invariant is kept by [add] only for
    a folder (a category) that exists; the other operations keep it, given
    that ["default"] exists, and a manager built without a file starts in
    it. *)
Theorem fixed_set_invariant_kept :
  (forall clock, folder_invariant (bookmarks.__init__ clock bookmarks.Missing)) /\
  (forall self : bookmarks.BookmarkManager,
     folder_invariant self ->
     (forall u t f fav now,
        f ∈ dom (bookmarks.folders self) ->
        folder_invariant (bookmarks.add self u t f fav now).1.1) /\
     (forall disk u, folder_invariant (bookmarks.remove self disk u).1.1) /\
     (forall disk name display_name,
        folder_invariant (bookmarks.add_folder self disk name display_name).1) /\
     (forall disk name, folder_invariant (bookmarks.remove_folder self disk name).1)) /\
  category_invariant todo_manager.__init__ /\
  (forall self : todo_manager.TodoManager,
     category_invariant self ->
     (forall txt prio due cat tgs new_id now now',
        cat ∈ todo_manager.categories self ->
        category_invariant
          (todo_manager.add self txt prio due cat tgs new_id now now').1) /\
     (forall todo_id, category_invariant (todo_manager.remove self todo_id).1) /\
     (forall cat, category_invariant (todo_manager.add_category self cat)) /\
     (forall cat, category_invariant (todo_manager.remove_category self cat).1) /\
     category_invariant (todo_manager.clear_completed self) /\
     category_invariant (todo_manager.clear_all self)).
Proof.
  split; [|split; [|split]].
  - intros clock. split; [|constructor]. simpl.
    rewrite default_folders_dom. set_solver.
  - apply bookmarks_folder_invariant.
  - split; [|constructor]. simpl. set_solver.
  - apply todos_category_invariant.
Qed.

(** [add] with a folder (a category) outside the set leaves the invariant. *)
Lemma add_leaves_fixed_set :
  folders_exist (bookmarks.__init__ (fun _ => "2024-05-01T10:00:00") bookmarks.Missing) /\
  ~ folders_exist
      (bookmarks.add (bookmarks.__init__ (fun _ => "2024-05-01T10:00:00") bookmarks.Missing)
         "https://example.com" "Example" "archive" "" "2024-05-01T10:00:01").1.1 /\
  categories_exist todo_manager.__init__ /\
  ~ categories_exist
      (todo_manager.add todo_manager.__init__ "buy milk" "medium" None "errands" None
         "1a2b3c4d" "2024-05-01T10:00:00" "2024-05-01T10:00:00").1.
Proof.
  split; [constructor|]. split.
  - unfold folders_exist. simpl. rewrite Forall_singleton. simpl.
    rewrite default_folders_dom, !elem_of_union, !elem_of_singleton.
    intros [[Hf|Hf]|Hf]; discriminate Hf.
  - split; [constructor|]. unfold categories_exist. simpl.
    rewrite Forall_singleton. simpl. apply (bool_decide_unpack _). exact I.
Qed.

(** *** Search *)

(** The query occurs, after [lower] on both sides, in the string. *)
Definition occurs_in (lower : string -> string) (query s : string) : Prop :=
  PyStr.contains (lower query) (lower s).

Lemma str_in_either needle s1 s2 :
  Is_true (PyStr.str_in needle s1 || PyStr.str_in needle s2) <->
  PyStr.contains needle s1 \/ PyStr.contains needle s2.
Proof.
  rewrite orb_True, !Is_true_true, !PyStr.str_in_spec. done.
Qed.

Lemma slice_to_all {A} n (l : list A) :
  Z.of_nat (length l) <= n -> PyStr.slice_to n l = l.
Proof.
  intros Hn. unfold PyStr.slice_to. rewrite decide_True by lia.
  apply take_ge. lia.
Qed.

(** C6, as the code has it.  [BookmarkManager.search] returns, in the order
    of [get_all()], exactly the bookmarks whose title or url contains the
    query after [lower].  [HistoryManager.search] returns the first [limit]
    (50 unless given) of the entries of the whole history whose title or url
    contains it.  [TodoManager.search] returns exactly the todos whose text
    or notes contain it. *)
Theorem search_filters (lower : string -> string) :
  (forall (self : bookmarks.BookmarkManager) query,
     bookmarks.search lower self query `sublist_of` bookmarks.get_all self /\
     forall b, b ∈ bookmarks.search lower self query <->
               b ∈ bookmarks.get_all self /\
               (occurs_in lower query (bookmarks.title b) \/
                occurs_in lower query (bookmarks.url b))) /\
  (forall (self : history.HistoryManager) query limit,
     exists matching,
       history.search lower self query limit = PyStr.slice_to limit matching /\
       matching `sublist_of` history.history self /\
       (forall h, h ∈ matching <->
                  h ∈ history.history self /\
                  (occurs_in lower query (history.title h) \/
                   occurs_in lower query (history.url h))) /\
       (Z.of_nat (length matching) <= limit ->
        history.search lower self query limit = matching)) /\
  (forall (self : todo_manager.TodoManager) query,
     todo_manager.search lower self query `sublist_of` todo_manager.get_all self /\
     forall t, t ∈ todo_manager.search lower self query <->
               t ∈ todo_manager.get_all self /\
               (occurs_in lower query (todo_manager.text t) \/
                occurs_in lower query (todo_manager.notes t))).
Proof.
  unfold occurs_in. split; [|split].
  - intros self query. split; [apply sublist_filter|]. intros b.
    unfold bookmarks.search, bookmarks.get_all.
    rewrite list_elem_of_filter, str_in_either. tauto.
  - intros self query limit. eexists. split; [reflexivity|].
    split; [apply sublist_filter|]. split.
    + intros h. rewrite list_elem_of_filter, str_in_either. tauto.
    + intros Hlimit. unfold history.search. by apply slice_to_all.
  - intros self query. split; [apply sublist_filter|]. intros t.
    unfold todo_manager.search, todo_manager.get_all.
    rewrite list_elem_of_filter, str_in_either. tauto.
Qed.

(** A history of [n] pages visited one after the other, the oldest one
    titled "needle". *)
Definition page (n : nat) : string :=
  "https://example.com/" +:+ String (ascii_of_nat (33 + n)) "".

Definition visited (n : nat) : history.HistoryManager :=
  foldl (fun self k => history.add self (page k) "" "" "2024-05-01T10:00:00"
                         "2024-05-01T10:00:00")
        (history.add (history.__init__ 10000) "https://needle.example" "needle" ""
           "2024-05-01T09:00:00" "2024-05-01T09:00:00")
        (seq 0 n).

(** With 50 later visits, the empty query matches the oldest entry and
    [search] with the default limit does not return it; with 100 later
    visits, [search] for "needle" returns an entry that [get_all()] with its
    default limit does not hold. *)
Lemma history_search_is_cut :
  "https://needle.example" ∈ (history.url <$> history.history (visited 50)) /\
  occurs_in PyStr.lower_ascii "" "needle" /\
  ("https://needle.example"
     ∉ history.url <$> history.search PyStr.lower_ascii (visited 50) "" 50) /\
  "https://needle.example"
    ∈ (history.url <$> history.search PyStr.lower_ascii (visited 100) "needle" 50) /\
  ("https://needle.example" ∉ history.url <$> history.get_all (visited 100) 100).
Proof.
  split; [apply (bool_decide_unpack _); vm_compute; exact I|].
  split; [by exists "", "needle"|].
  repeat split; apply (bool_decide_unpack _); vm_compute; exact I.
Qed.

(** ** productivity/site_blocker.py *)

Module site_blocker.

Record BlockRule := {
  pattern : string;
  rule_type : string;
  reason : string;
  enabled : bool;
  created_at : string;
  hit_count : Z;
  last_hit : option string;
  (** whether [self.compiled] holds a compiled expression *)
  compiled : bool
}.

(** An element of [blocked_pages]. *)
Record BlockedPage := {
  page_url : string;
  page_rule : string;
  page_timestamp : string
}.

(** [datetime.time]; times compare as the tuples of their four fields. *)
Record time := {
  hour : Z;
  minute : Z;
  second : Z;
  microsecond : Z
}.

Definition time_le (a b : time) : bool :=
  if hour a <? hour b then true else if hour b <? hour a then false
  else if minute a <? minute b then true else if minute b <? minute a then false
  else if second a <? second b then true else if second b <? second a then false
  else microsecond a <=? microsecond b.

(** The blocker.  The category list plays no part in [should_block]; the
    callbacks of [on_block] are user code and are taken not to touch the
    blocker. *)
Record SiteBlocker := {
  blocker_enabled : bool;
  rules : list BlockRule;
  whitelist : list string;
  blocked_count : Z;
  schedule_enabled : bool;
  schedule_start : string;
  schedule_end : string;
  schedule_days : list Z;
  blocked_pages : list BlockedPage
}.

Definition record_hit (now : string) (rule : BlockRule) : BlockRule :=
  {| pattern := pattern rule; rule_type := rule_type rule; reason := reason rule;
     enabled := enabled rule; created_at := created_at rule;
     hit_count := hit_count rule + 1; last_hit := Some now;
     compiled := compiled rule |}.

Section Library.

(** [str.lower] *)
Variable lower : string -> string.
(** [re.compile(pattern, re.IGNORECASE)] accepts the pattern. *)
Variable re_compiles : string -> bool.
(** [re.compile(pattern, re.IGNORECASE).search(url)] finds a match. *)
Variable re_search : string -> string -> bool.
(** [datetime.strptime(s, '%H:%M').time()]; [None] stands for [ValueError]. *)
Variable strptime_HM : string -> option time.

(** [BlockRule(pattern, rule_type, reason, enabled)] *)
Definition BlockRule_init (p ty r : string) (en : bool) (now : string) : BlockRule :=
  {| pattern := p; rule_type := ty; reason := r; enabled := en; created_at := now;
     hit_count := 0; last_hit := None;
     compiled := if decide (ty = "regex") then re_compiles p else false |}.

Definition matches (rule : BlockRule) (url : string) : bool :=
  if negb (enabled rule) then false
  else
    let url_lower := lower url in
    if decide (rule_type rule = "domain")
    then PyStr.str_in (lower (pattern rule)) url_lower
    else if decide (rule_type rule = "exact")
    then bool_decide (url_lower = lower (pattern rule))
    else if decide (rule_type rule = "prefix")
    then PyStr.startswith (lower (pattern rule)) url_lower
    else if bool_decide (rule_type rule = "regex") && compiled rule
    then re_search (pattern rule) url
    else false.

(** The loop of [is_whitelisted]. *)
Fixpoint is_whitelisted_in (items : list string) (url_lower : string) : bool :=
  match items with
  | [] => false
  | item :: items' =>
      if PyStr.str_in (lower item) url_lower then true
      else is_whitelisted_in items' url_lower
  end.

Definition is_whitelisted (self : SiteBlocker) (url : string) : bool :=
  is_whitelisted_in (whitelist self) (lower url).

(** [is_schedule_active]; [current_day] and [current_time] are the weekday
    and the time of [datetime.now()]. *)
Definition is_schedule_active (self : SiteBlocker) (current_day : Z)
    (current_time : time) : result bool :=
  if decide (current_day ∈ schedule_days self)
  then match strptime_HM (schedule_start self) with
       | None => Raise ValueError
       | Some start_time =>
           match strptime_HM (schedule_end self) with
           | None => Raise ValueError
           | Some end_time =>
               Ok (time_le start_time current_time && time_le current_time end_time)
           end
       end
  else Ok false.

(** The loop over [self.rules]: the rules with the first matching one hit,
    and that rule. *)
Fixpoint scan_rules (url now : string) (rs : list BlockRule)
    : option (list BlockRule * BlockRule) :=
  match rs with
  | [] => None
  | rule :: rs' =>
      if matches rule url
      then Some (record_hit now rule :: rs', record_hit now rule)
      else match scan_rules url now rs' with
           | Some (rs'', hit) => Some (rule :: rs'', hit)
           | None => None
           end
  end.

Definition block_on_rules (self : SiteBlocker) (url now now' : string)
    : SiteBlocker * (bool * option BlockRule) :=
  match scan_rules url now (rules self) with
  | Some (rs, rule) =>
      ({| blocker_enabled := blocker_enabled self;
          rules := rs;
          whitelist := whitelist self;
          blocked_count := blocked_count self + 1;
          schedule_enabled := schedule_enabled self;
          schedule_start := schedule_start self;
          schedule_end := schedule_end self;
          schedule_days := schedule_days self;
          blocked_pages :=
            (blocked_pages self
             ++ [{| page_url := url; page_rule := pattern rule;
                    page_timestamp := now' |}])%list |},
       (true, Some rule))
  | None => (self, (false, None))
  end.

(** [should_block(url)]; [now] and [now'] are the clock readings of
    [record_hit] and of the blocked-page entry. *)
Definition should_block (self : SiteBlocker) (url : string) (current_day : Z)
    (current_time : time) (now now' : string)
    : result (SiteBlocker * (bool * option BlockRule)) :=
  if negb (blocker_enabled self) then Ok (self, (false, None))
  else if is_whitelisted self url then Ok (self, (false, None))
  else if schedule_enabled self
  then active ← is_schedule_active self current_day current_time;
       if negb active then Ok (self, (false, None))
       else Ok (block_on_rules self url now now')
  else Ok (block_on_rules self url now now').

(** The schedule is inactive: the day is no schedule day, or the time lies
    outside the interval from [schedule_start] to [schedule_end]. *)
Definition schedule_inactive (self : SiteBlocker) (current_day : Z)
    (current_time : time) : Prop :=
  current_day ∉ schedule_days self \/
  exists start_time end_time,
    strptime_HM (schedule_start self) = Some start_time /\
    strptime_HM (schedule_end self) = Some end_time /\
    ~ (time_le start_time current_time = true /\ time_le current_time end_time = true).

(** *** The schedule window *)

Lemma schedule_inactive_spec self current_day current_time :
  schedule_inactive self current_day current_time <->
  is_schedule_active self current_day current_time = Ok false.
Proof.
  unfold schedule_inactive, is_schedule_active. split.
  - intros [Hday | (start_time & end_time & -> & -> & Hout)].
    + by rewrite decide_False.
    + case_decide; [|done]. f_equal. apply not_true_iff_false.
      by rewrite andb_true_iff.
  - case_decide as Hday; [|by left].
    destruct (strptime_HM (schedule_start self)) as [start_time|]; [|done].
    destruct (strptime_HM (schedule_end self)) as [end_time|]; [|done].
    intros [= Hboth]. right. exists start_time, end_time.
    split; [done|]. split; [done|].
    rewrite <- andb_true_iff. by rewrite Hboth.
Qed.

(** C4: an enabled blocker whose schedule is switched on and inactive
    allows every url, whatever its rules, and changes nothing. *)
Theorem inactive_schedule_allows (self : SiteBlocker) (url : string)
    (current_day : Z) (current_time : time) (now now' : string) :
  blocker_enabled self = true ->
  schedule_enabled self = true ->
  schedule_inactive self current_day current_time ->
  should_block self url current_day current_time now now' = Ok (self, (false, None)).
Proof.
  intros Hen Hsched Hinactive%schedule_inactive_spec.
  unfold should_block. rewrite Hen, Hsched, Hinactive. simpl.
  by destruct (is_whitelisted self url).
Qed.

End Library.

(** ['%H:%M'] on two digits each, for running the schedule on examples. *)
Definition digit (a : ascii) : option Z :=
  let n := Z.of_N (N_of_ascii a) in
  if (48 <=? n) && (n <=? 57) then Some (n - 48) else None.

Definition strptime_two_digits (s : string) : option time :=
  match s with
  | String h1 (String h2 (String sep (String m1 (String m2 EmptyString)))) =>
      match digit h1, digit h2, digit m1, digit m2 with
      | Some a, Some b, Some c, Some d =>
          if Ascii.eqb sep ":" && (10 * a + b <? 24) && (10 * c + d <? 60)
          then Some {| hour := 10 * a + b; minute := 10 * c + d;
                       second := 0; microsecond := 0 |}
          else None
      | _, _, _, _ => None
      end
  | _ => None
  end.

(** A blocker that blocks facebook.com on working days from 09:00 to 17:00. *)
Definition office_blocker : SiteBlocker :=
  {| blocker_enabled := true;
     rules := [BlockRule_init (fun _ => true) "facebook.com" "domain" "Social media"
                 true "2024-05-01T10:00:00"];
     whitelist := [];
     blocked_count := 0;
     schedule_enabled := true;
     schedule_start := "09:00";
     schedule_end := "17:00";
     schedule_days := [0; 1; 2; 3; 4];
     blocked_pages := [] |}.

Definition evening : time :=
  {| hour := 20; minute := 30; second := 15; microsecond := 0 |}.

Lemma inactive_schedule_allows_witness :
  matches PyStr.lower_ascii (fun _ _ => false)
    (BlockRule_init (fun _ => true) "facebook.com" "domain" "Social media" true
       "2024-05-01T10:00:00")
    "https://www.Facebook.com/feed" = true /\
  should_block PyStr.lower_ascii (fun _ _ => false) strptime_two_digits office_blocker
    "https://www.Facebook.com/feed" 0 evening "2024-05-06T20:30:15" "2024-05-06T20:30:15"
  = Ok (office_blocker, (false, None)).
Proof.
  split; [reflexivity|].
  apply inactive_schedule_allows; [reflexivity | reflexivity |].
  right. eexists _, _. split; [reflexivity|]. split; [reflexivity|].
  intros [_ Hend]. discriminate Hend.
Defined.

(** *** Rules, whitelist and schedule *)

Definition set_rules (rs : list BlockRule) (self : SiteBlocker) : SiteBlocker :=
  {| blocker_enabled := blocker_enabled self; rules := rs;
     whitelist := whitelist self; blocked_count := blocked_count self;
     schedule_enabled := schedule_enabled self;
     schedule_start := schedule_start self; schedule_end := schedule_end self;
     schedule_days := schedule_days self; blocked_pages := blocked_pages self |}.

Definition set_whitelist (w : list string) (self : SiteBlocker) : SiteBlocker :=
  {| blocker_enabled := blocker_enabled self; rules := rules self;
     whitelist := w; blocked_count := blocked_count self;
     schedule_enabled := schedule_enabled self;
     schedule_start := schedule_start self; schedule_end := schedule_end self;
     schedule_days := schedule_days self; blocked_pages := blocked_pages self |}.

Definition set_enabled (en : bool) (rule : BlockRule) : BlockRule :=
  {| pattern := pattern rule; rule_type := rule_type rule; reason := reason rule;
     enabled := en; created_at := created_at rule; hit_count := hit_count rule;
     last_hit := last_hit rule; compiled := compiled rule |}.

(** [add_rule(pattern, rule_type, reason)] *)
Definition add_rule (re_compiles : string -> bool) (self : SiteBlocker)
    (p ty r now : string) : SiteBlocker :=
  set_rules (rules self ++ [BlockRule_init re_compiles p ty r true now])%list self.

Definition remove_rule (self : SiteBlocker) (p : string) : SiteBlocker * bool :=
  let kept := filter (fun r => pattern r ≠ p) (rules self) in
  (set_rules kept self, bool_decide (length kept < length (rules self))%nat).

(** The loop of [enable_rule] and [disable_rule]: the first rule with the
    pattern gets the flag. *)
Fixpoint flag_first (p : string) (en : bool) (rs : list BlockRule)
    : option (list BlockRule) :=
  match rs with
  | [] => None
  | rule :: rs' =>
      if decide (pattern rule = p) then Some (set_enabled en rule :: rs')
      else match flag_first p en rs' with
           | Some rs'' => Some (rule :: rs'')
           | None => None
           end
  end.

Definition enable_rule (self : SiteBlocker) (p : string) : SiteBlocker * bool :=
  match flag_first p true (rules self) with
  | Some rs => (set_rules rs self, true)
  | None => (self, false)
  end.


Definition add_to_whitelist (self : SiteBlocker) (d : string) : SiteBlocker :=
  if decide (d ∈ whitelist self) then self
  else set_whitelist (whitelist self ++ [d])%list self.


(** [get_blocked_pages(limit)], that is [blocked_pages[-limit:]]; the
    default limit is 50. *)
Definition get_blocked_pages (self : SiteBlocker) (limit : Z) : list BlockedPage :=
  PyList.slice_from (- limit) (blocked_pages self).

(** [set_schedule(enabled, start, end, days)]: falsy [days] ([None] or the
    empty list) keep the days that were set. *)
Definition set_schedule (self : SiteBlocker) (en : bool) (start end_ : string)
    (days : option (list Z)) : SiteBlocker :=
  {| blocker_enabled := blocker_enabled self; rules := rules self;
     whitelist := whitelist self; blocked_count := blocked_count self;
     schedule_enabled := en; schedule_start := start; schedule_end := end_;
     schedule_days := match days with
                      | Some (d :: ds) => d :: ds
                      | _ => schedule_days self
                      end;
     blocked_pages := blocked_pages self |}.

Section LibraryFacts.

Variable lower : string -> string.
Variable re_search : string -> string -> bool.
Variable strptime_HM : string -> option time.

Lemma is_whitelisted_in_spec items url_lower :
  is_whitelisted_in lower items url_lower = true <->
  exists item, item ∈ items /\ PyStr.contains (lower item) url_lower.
Proof.
  induction items as [|item items IH]; simpl.
  - split; [done | by intros [? [?%elem_of_nil _]]].
  - destruct (PyStr.str_in (lower item) url_lower) eqn:Hin.
    + split; [|done]. intros _. exists item. split; [by left|].
      by apply PyStr.str_in_spec.
    + rewrite IH. split.
      * intros [i [Hi Hc]]. exists i. split; [by right | done].
      * intros [i [[->|Hi]%elem_of_cons Hc]]; [|by exists i].
        apply PyStr.str_in_spec in Hc. congruence.
Qed.

(** X20: a whitelist entry is a substring test on the whole url.  After
    [add_to_whitelist(item)], [should_block] allows every url that contains
    the item anywhere, letter case apart, and changes nothing: no rule is
    looked at and the schedule is not read, so it cannot raise either. *)
Theorem whitelisted_substring_allows (self : SiteBlocker) (item url : string)
    (current_day : Z) (current_time : time) (now now' : string) :
  PyStr.contains (lower item) (lower url) ->
  is_whitelisted lower (add_to_whitelist self item) url = true /\
  should_block lower re_search strptime_HM (add_to_whitelist self item) url
    current_day current_time now now'
  = Ok (add_to_whitelist self item, (false, None)).
Proof.
  intros Hsub.
  assert (is_whitelisted lower (add_to_whitelist self item) url = true) as Hw.
  { unfold is_whitelisted. apply is_whitelisted_in_spec. exists item.
    split; [|done]. unfold add_to_whitelist. case_decide; [done|]. simpl.
    apply elem_of_app. right. by left. }
  split; [done|]. unfold should_block. rewrite Hw.
  by destruct (blocker_enabled (add_to_whitelist self item)).
Qed.

Lemma scan_rules_first url now pre r post :
  Forall (fun g => matches lower re_search g url = false) pre ->
  matches lower re_search r url = true ->
  scan_rules lower re_search url now (pre ++ r :: post)%list
  = Some ((pre ++ record_hit now r :: post)%list, record_hit now r).
Proof.
  intros Hpre Hr. induction Hpre as [|g pre Hg _ IH]; simpl.
  - by rewrite Hr.
  - by rewrite Hg, IH.
Qed.

Lemma scan_rules_none url now rs :
  Forall (fun g => matches lower re_search g url = false) rs ->
  scan_rules lower re_search url now rs = None.
Proof.
  induction 1 as [|g rs Hg _ IH]; simpl; [done|]. by rewrite Hg, IH.
Qed.


(** X21: the first matching rule blocks.  When the blocker is enabled, the
    url is not whitelisted and the schedule is switched off or active, the
    first rule of the list that matches the url is hit: it is returned with
    its hit count one higher and the time of the hit, the blocked count goes
    up by one, one page is appended to the blocked pages, and no other rule
    changes.  When no rule matches, the url is allowed and nothing
    changes. *)
Theorem first_matching_rule_blocks (self : SiteBlocker) (url : string)
    (current_day : Z) (current_time : time) (now now' : string) :
  blocker_enabled self = true ->
  is_whitelisted lower self url = false ->
  schedule_enabled self = false \/
    is_schedule_active strptime_HM self current_day current_time = Ok true ->
  (forall pre r post,
     rules self = (pre ++ r :: post)%list ->
     Forall (fun g => matches lower re_search g url = false) pre ->
     matches lower re_search r url = true ->
     exists self',
       should_block lower re_search strptime_HM self url current_day current_time
         now now' = Ok (self', (true, Some (record_hit now r))) /\
       rules self' = (pre ++ record_hit now r :: post)%list /\
       hit_count (record_hit now r) = hit_count r + 1 /\
       last_hit (record_hit now r) = Some now /\
       blocked_count self' = blocked_count self + 1 /\
       blocked_pages self'
       = (blocked_pages self
          ++ [{| page_url := url; page_rule := pattern r; page_timestamp := now' |}])%list /\
       whitelist self' = whitelist self /\
       blocker_enabled self' = true /\
       get_blocked_pages self' 1
       = [{| page_url := url; page_rule := pattern r; page_timestamp := now' |}]) /\
  (Forall (fun g => matches lower re_search g url = false) (rules self) ->
   should_block lower re_search strptime_HM self url current_day current_time now now'
   = Ok (self, (false, None))).
Proof.
  intros Hen Hw Hsched.
  assert (should_block lower re_search strptime_HM self url current_day current_time
            now now' = Ok (block_on_rules lower re_search self url now now')) as ->.
  { unfold should_block. rewrite Hen, Hw. simpl.
    destruct Hsched as [-> | Hactive]; [done|].
    destruct (schedule_enabled self); [|done]. by rewrite Hactive. }
  unfold block_on_rules. split.
  - intros pre r post Hrules Hpre Hr.
    rewrite Hrules, (scan_rules_first url now pre r post Hpre Hr).
    eexists. split; [done|]. simpl. repeat split; try done.
    unfold get_blocked_pages, PyList.slice_from. simpl.
    rewrite length_app. simpl.
    replace (Z.to_nat (Z.of_nat (length (blocked_pages self) + 1) + - (1)))
      with (length (blocked_pages self)) by lia.
    by rewrite drop_app_length.
  - intros Hnone. by rewrite scan_rules_none.
Qed.

(** X22: the schedule strings are not checked when they are set.
    [set_schedule] stores any start and end and keeps the old days when it
    is given none or an empty list; with a start or an end that
    [strptime('%H:%M')] refuses, [should_block] of an enabled blocker raises
    [ValueError] for every url that is not whitelisted on every scheduled
    day, while it still allows on the other days. *)
Theorem unchecked_schedule_raises (self : SiteBlocker) (start end_ url : string)
    (days : option (list Z)) (current_day : Z) (current_time : time)
    (now now' : string) :
  let self' := set_schedule self true start end_ days in
  blocker_enabled self = true ->
  is_whitelisted lower self url = false ->
  strptime_HM start = None \/ strptime_HM end_ = None ->
  (days = None \/ days = Some [] -> schedule_days self' = schedule_days self) /\
  (current_day ∈ schedule_days self' ->
   should_block lower re_search strptime_HM self' url current_day current_time now now'
   = Raise ValueError) /\
  (current_day ∉ schedule_days self' ->
   should_block lower re_search strptime_HM self' url current_day current_time now now'
   = Ok (self', (false, None))).
Proof.
  intros self' Hen Hw Hbad.
  assert (is_whitelisted lower self' url = false) as Hw' by done.
  split; [by intros [-> | ->]|].
  unfold should_block, is_schedule_active.
  change (blocker_enabled self') with (blocker_enabled self).
  rewrite Hen, Hw'. cbn [negb schedule_enabled self' set_schedule schedule_start
                         schedule_end].
  split.
  - intros Hday. rewrite decide_True by done.
    destruct Hbad as [-> | Hend]; [done|].
    destruct (strptime_HM start); [by rewrite Hend | done].
  - intros Hday. by rewrite decide_False.
Qed.




(** X23: [get_blocked_pages(limit)] is the tail of the log.  For a
    positive limit it returns the last [limit] pages, all of them when there
    are fewer; a limit of 0 returns the whole log, not nothing; a negative
    limit drops that many pages from the front. *)
Theorem get_blocked_pages_tail (self : SiteBlocker) (limit : Z) :
  (0 < limit ->
   get_blocked_pages self limit
   = drop (length (blocked_pages self) - Z.to_nat limit) (blocked_pages self) /\
   length (get_blocked_pages self limit)
   = Nat.min (Z.to_nat limit) (length (blocked_pages self))) /\
  (limit = 0 -> get_blocked_pages self limit = blocked_pages self) /\
  (limit < 0 ->
   get_blocked_pages self limit = drop (Z.to_nat (- limit)) (blocked_pages self)) /\
  (Z.of_nat (length (blocked_pages self)) <= limit ->
   get_blocked_pages self limit = blocked_pages self).
Proof.
  unfold get_blocked_pages, PyList.slice_from. split; [|split; [|split]].
  - intros Hpos. rewrite decide_False by lia.
    replace (Z.to_nat (Z.of_nat (length (blocked_pages self)) + - limit))
      with (length (blocked_pages self) - Z.to_nat limit)%nat by lia.
    split; [done|]. rewrite length_drop. lia.
  - intros ->. by rewrite decide_True.
  - intros Hneg. by rewrite decide_True by lia.
  - intros Hall. destruct (decide (0 <= - limit)) as [Hle|Hgt].
    + assert (limit = 0) as -> by lia. simpl.
      assert (blocked_pages self = []) as -> by (apply length_zero_iff_nil; lia).
      done.
    + replace (Z.to_nat (Z.of_nat (length (blocked_pages self)) + - limit))
        with 0%nat by lia. done.
Qed.


End LibraryFacts.

Lemma whitelisted_substring_allows_witness :
  should_block PyStr.lower_ascii (fun _ _ => false) strptime_two_digits
    (add_to_whitelist office_blocker "Feed") "https://www.facebook.com/feed"
    2 {| hour := 10; minute := 0; second := 0; microsecond := 0 |}
    "2024-05-08T10:00:00" "2024-05-08T10:00:00"
  = Ok (add_to_whitelist office_blocker "Feed", (false, None)).
Proof.
  apply whitelisted_substring_allows.
  by exists "https://www.facebook.com/", "".
Defined.

Lemma first_matching_rule_blocks_witness :
  exists self',
    should_block PyStr.lower_ascii (fun _ _ => false) strptime_two_digits office_blocker
      "https://www.Facebook.com/feed" 2
      {| hour := 10; minute := 0; second := 0; microsecond := 0 |}
      "2024-05-08T10:00:00" "2024-05-08T10:00:01"
    = Ok (self', (true, Some (record_hit "2024-05-08T10:00:00"
                                (BlockRule_init (fun _ => true) "facebook.com" "domain"
                                   "Social media" true "2024-05-01T10:00:00")))) /\
    blocked_count self' = 1.
Proof.
  destruct (first_matching_rule_blocks PyStr.lower_ascii (fun _ _ => false)
              strptime_two_digits office_blocker "https://www.Facebook.com/feed" 2
              {| hour := 10; minute := 0; second := 0; microsecond := 0 |}
              "2024-05-08T10:00:00" "2024-05-08T10:00:01"
              eq_refl eq_refl (or_intror eq_refl)) as [Hblock _].
  destruct (Hblock [] (BlockRule_init (fun _ => true) "facebook.com" "domain"
                         "Social media" true "2024-05-01T10:00:00") []
              eq_refl (Forall_nil_2 _) eq_refl)
    as (self' & Hrun & _ & _ & _ & Hcount & _).
  exists self'. split; [exact Hrun | exact Hcount].
Defined.

Lemma unchecked_schedule_raises_witness :
  should_block PyStr.lower_ascii (fun _ _ => false) strptime_two_digits
    (set_schedule office_blocker true "9am" "17:00" (Some [])) "https://example.com/" 2
    {| hour := 10; minute := 0; second := 0; microsecond := 0 |}
    "2024-05-08T10:00:00" "2024-05-08T10:00:00"
  = Raise ValueError.
Proof.
  apply (unchecked_schedule_raises PyStr.lower_ascii (fun _ _ => false)
           strptime_two_digits office_blocker "9am" "17:00" "https://example.com/"
           (Some []) 2); [reflexivity | reflexivity | by left |].
  apply (bool_decide_unpack _). vm_compute. exact I.
Defined.

Section RuleTypes.

Variable lower : string -> string.
Variable re_compiles : string -> bool.
Variable re_search : string -> string -> bool.

Lemma startswith_refl s : PyStr.startswith s s = true.
Proof. induction s as [|a s IH]; simpl; [done | by rewrite Ascii.eqb_refl]. Qed.

Lemma startswith_str_in p s : PyStr.startswith p s = true -> PyStr.str_in p s = true.
Proof.
  intros [post ->]%PyStr.startswith_spec. apply PyStr.str_in_spec. by exists "", post.
Qed.

(** X28: the rule types, from strict to loose.  For one pattern, a url
    that an "exact" rule matches is matched by the "prefix" rule, and a url
    that the "prefix" rule matches is matched by the "domain" rule, which
    matches exactly the urls that contain the pattern anywhere, letter case
    apart.  A disabled rule, a rule of any other type than the four, and a
    "regex" rule whose pattern [re] refused match nothing. *)
Theorem rule_types_nest (p r now url : string) :
  let rule ty en := BlockRule_init re_compiles p ty r en now in
  (matches lower re_search (rule "exact" true) url = true <-> lower url = lower p) /\
  (matches lower re_search (rule "exact" true) url = true ->
   matches lower re_search (rule "prefix" true) url = true) /\
  (matches lower re_search (rule "prefix" true) url = true ->
   matches lower re_search (rule "domain" true) url = true) /\
  (matches lower re_search (rule "domain" true) url = true <->
   PyStr.contains (lower p) (lower url)) /\
  (forall ty, matches lower re_search (rule ty false) url = false) /\
  (forall ty, ty ∉ ["domain"; "exact"; "prefix"; "regex"] ->
     matches lower re_search (rule ty true) url = false) /\
  (re_compiles p = false -> matches lower re_search (rule "regex" true) url = false) /\
  (re_compiles p = true ->
   matches lower re_search (rule "regex" true) url = re_search p url).
Proof.
  intros rule. unfold matches, rule, BlockRule_init; simpl.
  split; [by rewrite bool_decide_eq_true|].
  split; [intros ->%bool_decide_eq_true; apply startswith_refl|].
  split; [apply startswith_str_in|].
  split; [apply PyStr.str_in_spec|].
  split; [done|]. split.
  - intros ty Hty. rewrite !not_elem_of_cons in Hty.
    destruct Hty as (H1 & H2 & H3 & H4 & _).
    rewrite !decide_False by done. by rewrite bool_decide_eq_false_2.
  - split; by intros ->.
Qed.

End RuleTypes.

End site_blocker.

(** ** smart/translator.py *)

Module translator.

(** The translator looks at code points, so its strings are lists of code
    points. *)
Definition pystr := list N.

(** A literal of ASCII characters. *)
Fixpoint cp (s : string) : pystr :=
  match s with
  | EmptyString => []
  | String a s' => N_of_ascii a :: cp s'
  end.

Arguments cp : simpl never.

Fixpoint startswith (p s : pystr) : bool :=
  match p, s with
  | [], _ => true
  | a :: p', b :: s' => N.eqb a b && startswith p' s'
  | _ :: _, [] => false
  end.

(** [needle in hay] *)
Fixpoint str_in (needle hay : pystr) : bool :=
  startswith needle hay ||
  match hay with
  | [] => false
  | _ :: hay' => str_in needle hay'
  end.

Record TranslationResult := {
  original : pystr;
  translated : pystr;
  source_lang : pystr;
  target_lang : pystr;
  timestamp : option pystr
}.

Definition TranslationResult_init (o t s g : pystr) : TranslationResult :=
  {| original := o; translated := t; source_lang := s; target_lang := g;
     timestamp := None |}.

(** The translator; every translation ends by writing translator.json,
    which the constructor alone reads and which is left out of the state. *)
Record Translator := {
  default_source_lang : pystr;
  default_target_lang : pystr;
  history : list TranslationResult;
  favorites : list TranslationResult
}.

Definition __init__ : Translator :=
  {| default_source_lang := cp "auto"; default_target_lang := cp "en";
     history := []; favorites := [] |}.

Definition lang_names : list (pystr * pystr) := [
  (cp "en", cp "English"); (cp "ru", cp "Russian"); (cp "uk", cp "Ukrainian");
  (cp "es", cp "Spanish"); (cp "fr", cp "French"); (cp "de", cp "German");
  (cp "it", cp "Italian"); (cp "pt", cp "Portuguese"); (cp "zh", cp "Chinese");
  (cp "ja", cp "Japanese"); (cp "ko", cp "Korean")
].

(** [d.get(k, default)] *)
Definition dict_get (k : pystr) (d : list (pystr * pystr)) (dflt : pystr) : pystr :=
  match find (fun kv => bool_decide (kv.1 = k)) d with
  | Some kv => kv.2
  | None => dflt
  end.

Definition in_range (lo hi c : N) : bool := ((lo <=? c) && (c <=? hi))%N.

(** [_detect_language].  The test [len(cyrillic) / len(text) > 0.3] on
    floats is the test [10 * len(cyrillic) > 3 * len(text)] on integers for
    every text shorter than 10^15 characters; the division raises on the
    empty text. *)
Definition _detect_language (text : pystr) : result pystr :=
  let cyrillic := filter (fun c => in_range 0x0400 0x04FF c) text in
  if decide (text = []) then Raise ZeroDivisionError
  else if decide (3 * Z.of_nat (length text) < 10 * Z.of_nat (length cyrillic))
  then if existsb (fun c => str_in c text)
                  [[0x0456; 0x0439]; [0x0454]; [0x0457]]%N
       then Ok (cp "uk") else Ok (cp "ru")
  else
    let cjk := filter (fun c => in_range 0x4e00 0x9fff c || in_range 0x3040 0x309f c
                                || in_range 0x30a0 0x30ff c) text in
    if decide (cjk ≠ [])
    then if existsb (fun c => (0x3000 <? c)%N) cjk then Ok (cp "zh") else Ok (cp "ja")
    else
      let korean := filter (fun c => in_range 0xac00 0xd7af c) text in
      if decide (korean ≠ []) then Ok (cp "ko") else Ok (cp "en").

Definition _translate_text (text source target : pystr) : result pystr :=
  source ← (if decide (source = cp "auto") then _detect_language text else Ok source);
  if decide (source = target) then Ok text
  else
    let target_name := dict_get target lang_names target in
    Ok (cp "[" ++ target_name ++ cp "] " ++ text)%list.

(** [translate(text, source, target)]; [source] is ["auto"] unless given. *)
Definition translate (self : Translator) (text source : pystr) (target : option pystr)
    : result (Translator * option TranslationResult) :=
  if decide (text = []) then Ok (self, None)
  else
    let target := default (default_target_lang self) target in
    translated ← _translate_text text source target;
    let result := TranslationResult_init text translated source target in
    Ok ({| default_source_lang := default_source_lang self;
           default_target_lang := default_target_lang self;
           history := take 100 (result :: history self);
           favorites := favorites self |},
        Some result).

(** The translated field of what [translate] returns. *)
Definition translated_of (r : result (Translator * option TranslationResult))
    : option pystr :=
  match r with
  | Ok (_, Some t) => Some (translated t)
  | _ => None
  end.

(** *** What a translation is *)

Lemma _detect_language_total text :
  text ≠ [] -> exists lang, _detect_language text = Ok lang.
Proof.
  intros Htext. unfold _detect_language. rewrite decide_False by done.
  repeat (case_decide || case_match); eauto.
Qed.

Lemma dict_get_listed k d dflt :
  k ∉ d.*1 -> dict_get k d dflt = dflt.
Proof.
  unfold dict_get. induction d as [|[k' v] d IH]; [done|]. simpl.
  rewrite not_elem_of_cons. intros [Hne Hd]. rewrite bool_decide_eq_false_2 by done.
  by apply IH.
Qed.

(** C7, as the code has it: for a non-empty text [translate] returns a
    result.  With the source language taken from the text when it is
    ["auto"], the translated field is the text itself when source and target
    are equal; otherwise it is "[" + name + "] " + text, where name is the
    English name of the target for the eleven codes of [lang_names] and the
    target code itself for any other code. *)
Theorem translate_marks_text (self : Translator) (text source : pystr)
    (target : option pystr) :
  text ≠ [] ->
  let tgt := default (default_target_lang self) target in
  exists detected self' r,
    _detect_language text = Ok detected /\
    translate self text source target = Ok (self', Some r) /\
    original r = text /\ source_lang r = source /\ target_lang r = tgt /\
    head (history self') = Some r /\
    let src := if decide (source = cp "auto") then detected else source in
    (src = tgt -> translated r = text) /\
    (src ≠ tgt -> tgt ∉ lang_names.*1 ->
     translated r = (cp "[" ++ tgt ++ cp "] " ++ text)%list) /\
    (src ≠ tgt -> forall name, (tgt, name) ∈ lang_names ->
     translated r = (cp "[" ++ name ++ cp "] " ++ text)%list).
Proof.
  intros Htext tgt. destruct (_detect_language_total text Htext) as [detected Hdet].
  unfold translate, _translate_text. rewrite decide_False by done. fold tgt.
  set (src := if decide (source = cp "auto") then detected else source).
  assert ((if decide (source = cp "auto") then _detect_language text else Ok source)
          = Ok src) as -> by (subst src; by case_decide).
  exists detected. cbn [mbind result_bind].
  destruct (decide (src = tgt)) as [Heq|Hne]; cbn [mbind result_bind];
    eexists _, _; (split; [done|]); (split; [reflexivity|]);
    cbn [original source_lang target_lang translated history head take
         TranslationResult_init];
    repeat (split; [done|]).
  - intros Hne. by destruct Hne.
  - split.
    + intros _ Hout. by rewrite dict_get_listed.
    + intros _ name Hname. f_equal. f_equal.
      clear -Hname. unfold lang_names in Hname.
      repeat (apply elem_of_cons in Hname as [[= -> ->]|Hname]; [reflexivity|]).
      by apply elem_of_nil in Hname.
Qed.

Lemma translate_marks_text_witness :
  exists self',
    translate __init__ (cp "hello world") (cp "auto") (Some (cp "pl"))
    = Ok (self', Some (TranslationResult_init (cp "hello world") (cp "[pl] hello world")
                         (cp "auto") (cp "pl"))).
Proof.
  assert (cp "hello world" ≠ []) as Htext by discriminate.
  destruct (translate_marks_text __init__ (cp "hello world") (cp "auto")
              (Some (cp "pl")) Htext) as (detected & self' & r & _ & Hr & _).
  exists self'. rewrite Hr. f_equal. f_equal. f_equal.
  injection Hr as _ <-. reflexivity.
Defined.

(** The translation into English carries the name and not the code, and a
    text whose source is the target is returned as it is. *)
Lemma translate_uses_names :
  translated_of (translate __init__ (cp "hello") (cp "ru") (Some (cp "en")))
  = Some (cp "[English] hello") /\
  cp "[English] hello" ≠ cp "[en] hello" /\
  translated_of (translate __init__ (cp "hello") (cp "auto") (Some (cp "en")))
  = Some (cp "hello") /\
  cp "hello" ≠ cp "[en] hello".
Proof. repeat split; (reflexivity || discriminate). Qed.

(** *** Detection, history and favourites *)

(** [add_to_favorites(result)]: a result whose original is a favourite
    already is not added. *)
Definition add_to_favorites (self : Translator) (r : TranslationResult) : Translator :=
  if existsb (fun fav => bool_decide (original fav = original r)) (favorites self)
  then self
  else {| default_source_lang := default_source_lang self;
          default_target_lang := default_target_lang self;
          history := history self;
          favorites := (favorites self ++ [r])%list |}.

Definition remove_from_favorites (self : Translator) (o : pystr) : Translator * bool :=
  let kept := filter (fun f => original f ≠ o) (favorites self) in
  ({| default_source_lang := default_source_lang self;
      default_target_lang := default_target_lang self;
      history := history self;
      favorites := kept |},
   bool_decide (length kept < length (favorites self))%nat).

Definition clear_history (self : Translator) : Translator :=
  {| default_source_lang := default_source_lang self;
     default_target_lang := default_target_lang self;
     history := []; favorites := favorites self |}.

Lemma filter_none {A} (P : A -> Prop) `{!forall x, Decision (P x)} (l : list A) :
  Forall (fun x => ~ P x) l -> filter P l = [].
Proof.
  induction 1 as [|x l Hx _ IH]; [done|]. by rewrite filter_cons_False.
Qed.

Lemma filter_every {A} (P : A -> Prop) `{!forall x, Decision (P x)} (l : list A) :
  Forall P l -> filter P l = l.
Proof.
  induction 1 as [|x l Hx _ IH]; [done|]. rewrite filter_cons_True by done.
  by rewrite IH.
Qed.

Lemma in_range_spec lo hi c : in_range lo hi c = true <-> (lo <= c <= hi)%N.
Proof. unfold in_range. rewrite andb_true_iff, !N.leb_le. done. Qed.

Lemma cjk_above c :
  Is_true (in_range 0x4e00 0x9fff c || in_range 0x3040 0x309f c
           || in_range 0x30a0 0x30ff c) ->
  (0x3000 <? c)%N = true.
Proof.
  rewrite !orb_True, !Is_true_true, !in_range_spec, N.ltb_lt. lia.
Qed.

Lemma existsb_above (cjk : list N) :
  cjk ≠ [] -> Forall (fun c => (0x3000 <? c)%N = true) cjk ->
  existsb (fun c => (0x3000 <? c)%N) cjk = true.
Proof. intros Hne Hall. destruct Hall as [|c l Hc _]; [done|]. simpl. by rewrite Hc. Qed.

(** X25: what [_detect_language] can answer.  On the empty text the
    division raises.  On any other text the answer is one of "uk", "ru",
    "zh", "ko" and "en", and never "ja": every character that counts as
    CJK lies above U+3000, so a text in Japanese kana is reported as "zh".
    A text of characters below U+0400 (Latin script) is reported as "en". *)
Theorem detect_language_codes (text : pystr) :
  _detect_language [] = Raise ZeroDivisionError /\
  (text ≠ [] ->
   (exists lang, _detect_language text = Ok lang /\
                 lang ∈ [cp "uk"; cp "ru"; cp "zh"; cp "ko"; cp "en"]) /\
   _detect_language text ≠ Ok (cp "ja") /\
   (Forall (fun c => in_range 0x3040 0x30ff c = true) text ->
    _detect_language text = Ok (cp "zh")) /\
   (Forall (fun c => (c < 0x0400)%N) text -> _detect_language text = Ok (cp "en"))).
Proof.
  split; [done|]. intros Htext.
  assert (forall cjk : list N,
            cjk = filter (fun c => in_range 0x4e00 0x9fff c || in_range 0x3040 0x309f c
                                   || in_range 0x30a0 0x30ff c) text ->
            cjk ≠ [] -> existsb (fun c => (0x3000 <? c)%N) cjk = true) as Hcjk.
  { intros cjk -> Hne. apply existsb_above; [done|].
    apply Forall_forall. intros c [Hc _]%list_elem_of_filter. by apply cjk_above. }
  unfold _detect_language. rewrite decide_False by done.
  split; [|split; [|split]].
  - case_decide; [destruct (existsb _ _); eexists; (split; [done|]);
                  apply (bool_decide_unpack _); vm_compute; exact I|].
    case_decide as Hne.
    + rewrite (Hcjk _ eq_refl Hne). eexists. split; [done|].
      apply (bool_decide_unpack _). vm_compute. exact I.
    + case_decide; eexists; (split; [done|]);
        apply (bool_decide_unpack _); vm_compute; exact I.
  - case_decide; [by destruct (existsb _ _)|].
    case_decide as Hne; [by rewrite (Hcjk _ eq_refl Hne)|].
    by case_decide.
  - intros Hkana.
    rewrite (filter_none (fun c => in_range 0x0400 0x04FF c) text).
    2:{ eapply Forall_impl; [exact Hkana|]. intros c Hc%in_range_spec.
        rewrite Is_true_true, in_range_spec. lia. }
    rewrite decide_False by (simpl; lia).
    rewrite (filter_every _ text).
    2:{ eapply Forall_impl; [exact Hkana|]. intros c Hc%in_range_spec.
        rewrite !orb_True, !Is_true_true, !in_range_spec. lia. }
    rewrite decide_True by done.
    rewrite existsb_above; [done | done |].
    eapply Forall_impl; [exact Hkana|]. intros c Hc%in_range_spec.
    apply N.ltb_lt. lia.
  - intros Hlatin.
    rewrite (filter_none (fun c => in_range 0x0400 0x04FF c) text).
    2:{ eapply Forall_impl; [exact Hlatin|]. intros c Hc. simpl in Hc.
        rewrite Is_true_true, in_range_spec. lia. }
    rewrite decide_False by (simpl; lia).
    rewrite (filter_none _ text).
    2:{ eapply Forall_impl; [exact Hlatin|]. intros c Hc. simpl in Hc.
        rewrite !orb_True, !Is_true_true, !in_range_spec. lia. }
    rewrite decide_False by (by intros []).
    rewrite (filter_none (fun c => in_range 0xac00 0xd7af c) text).
    2:{ eapply Forall_impl; [exact Hlatin|]. intros c Hc. simpl in Hc.
        rewrite Is_true_true, in_range_spec. lia. }
    by rewrite decide_False by (by intros []).
Qed.

(** X26: the translation history.  [translate] of an empty text returns
    [None] and changes nothing.  Otherwise the new result is put in front
    of the history, which is then cut to its first 100 entries, so it never
    holds more than 100; the favourites and the default languages are never
    touched, and [clear_history] empties the history only. *)
Theorem translate_history_capped (self : Translator) (text source : pystr)
    (target : option pystr) :
  translate self [] source target = Ok (self, None) /\
  (forall self' r,
     translate self text source target = Ok (self', r) ->
     favorites self' = favorites self /\
     default_source_lang self' = default_source_lang self /\
     default_target_lang self' = default_target_lang self /\
     (text ≠ [] ->
      (length (history self') <= 100)%nat /\
      exists result, r = Some result /\
        history self' = take 100 (result :: history self) /\
        (length (history self) < 100 ->
         history self' = result :: history self)%nat)) /\
  history (clear_history self) = [] /\
  favorites (clear_history self) = favorites self.
Proof.
  split; [done|]. split; [|done].
  intros self' r. unfold translate. case_decide as Htext.
  - intros [= <- <-]. done.
  - destruct (_translate_text text source _) as [translated|]; simpl; [|done].
    intros [= <- <-]. cbn [favorites default_source_lang default_target_lang history].
    do 3 (split; [done|]). intros _. split.
    + simpl. rewrite length_take. lia.
    + eexists. split; [done|]. split; [done|]. intros Hroom.
      f_equal. apply take_ge. lia.
Qed.

Lemma add_to_favorites_known (self : Translator) r :
  existsb (fun fav => bool_decide (original fav = original r)) (favorites self) = true
  <-> original r ∈ original <$> favorites self.
Proof.
  rewrite existsb_exists, list_elem_of_fmap. split.
  - intros [f [Hf Ho]]. exists f. apply list_elem_of_In in Hf.
    apply bool_decide_eq_true in Ho. done.
  - intros [f [Ho Hf]]. exists f. apply list_elem_of_In in Hf.
    by rewrite bool_decide_eq_true.
Qed.

(** X27: favourites are unique by their original text.  [add_to_favorites]
    appends a result whose original is no favourite yet and ignores any
    other, so originals that are pairwise distinct stay so and adding the
    same result again changes nothing.  [remove_from_favorites] answers
    whether the original was a favourite, after it the original is none, and
    it keeps the originals distinct. *)
Theorem favorites_unique (self : Translator) (r : TranslationResult) (o : pystr) :
  original r ∈ original <$> favorites (add_to_favorites self r) /\
  add_to_favorites (add_to_favorites self r) r = add_to_favorites self r /\
  (original r ∈ original <$> favorites self -> add_to_favorites self r = self) /\
  (original r ∉ original <$> favorites self ->
   favorites (add_to_favorites self r) = (favorites self ++ [r])%list) /\
  (NoDup (original <$> favorites self) ->
   NoDup (original <$> favorites (add_to_favorites self r)) /\
   NoDup (original <$> favorites (remove_from_favorites self o).1)) /\
  (o ∉ original <$> favorites (remove_from_favorites self o).1) /\
  ((remove_from_favorites self o).2 = true <-> o ∈ original <$> favorites self).
Proof.
  assert (original r ∈ original <$> favorites (add_to_favorites self r)) as Hin.
  { unfold add_to_favorites.
    destruct (existsb _ (favorites self)) eqn:Hknown.
    - by apply add_to_favorites_known.
    - simpl. rewrite fmap_app. apply elem_of_app. right. by left. }
  split; [done|]. split.
  { apply add_to_favorites_known in Hin. unfold add_to_favorites at 1. by rewrite Hin. }
  split.
  { intros Hknown%add_to_favorites_known. unfold add_to_favorites. by rewrite Hknown. }
  split.
  { intros Hnew. unfold add_to_favorites.
    destruct (existsb _ (favorites self)) eqn:Hknown; [|done].
    by apply add_to_favorites_known in Hknown. }
  split.
  { intros Hdup. split.
    - unfold add_to_favorites. destruct (existsb _ (favorites self)) eqn:Hknown; [done|].
      simpl. rewrite fmap_app. apply NoDup_app. repeat split; [done | | apply NoDup_singleton].
      intros x Hx ->%list_elem_of_singleton.
      apply add_to_favorites_known in Hx. congruence.
    - simpl. eapply sublist_NoDup; [exact Hdup|]. apply fmap_sublist, sublist_filter. }
  split.
  { simpl. intros [f [-> [Hf _]%list_elem_of_filter]]%list_elem_of_fmap. by apply Hf. }
  simpl. rewrite bool_decide_eq_true, filter_shorter_iff, list_elem_of_fmap. split.
  - intros [f [Hf Ho]]. exists f. split; [|done]. by destruct (decide (original f = o)).
  - intros [f [-> Hf]]. exists f. split; [done | by intros []].
Qed.

End translator.
